(* ===================================================================== *)
(* EMS scheduler: shift assignment and coverage validation               *)
(*                                                                       *)
(* A shallow embedding of Scheduler.__init__ and                         *)
(* Scheduler.generate_schedule of ems_scheduler.py, with the pieces of   *)
(* calendar, datetime and pandas that generate_schedule calls, and the   *)
(* properties of the schedule it builds.                                 *)
(* ===================================================================== *)

From Stdlib Require Import ZArith QArith Ascii String List Lia.
From stdpp Require Import base decidable option list list_numbers numbers
  strings pretty gmap fin_maps fin_sets.

Local Open Scope Z_scope.

(* ===================================================================== *)
(* 1. Configuration                                                      *)
(* ===================================================================== *)

(** SHIFTS = ["AM", "Midday", "PM"] *)
Definition SHIFTS : list string := ["AM"; "Midday"; "PM"]%string.

(** ROLES_NEEDED = ["Full EMT", "Probationary EMT", "Observer"] *)
Definition ROLES_NEEDED : list string :=
  ["Full EMT"; "Probationary EMT"; "Observer"]%string.

(* ===================================================================== *)
(* 2. Exceptions and the program monad                                   *)
(* ===================================================================== *)

(** The exceptions the calls of generate_schedule can raise:
    calendar.IllegalMonthError (a ValueError) from calendar.monthrange,
    ValueError and OverflowError from the datetime.date constructor,
    ValueError from DataFrame.sample, AttributeError from the Series.str
    accessor. *)
Inductive Exn : Type :=
  | IllegalMonthError (month : Z)
  | ValueError (msg : string)
  | AttributeError (msg : string)
  | OverflowError (msg : string).

(** NumPy's global random state, as the sequence of raw draws it will
    hand out and the number of draws already consumed. *)
Record RandomState : Type := mkRandomState {
  draws : nat → nat;
  cursor : nat
}.

Definition next_draw (rs : RandomState) : nat * RandomState :=
  (draws rs (cursor rs), mkRandomState (draws rs) (S (cursor rs))).

Module Py.

(** A computation over a mutable state [S] that returns a value or
    raises.  The state reached is returned in both cases: Python does
    not roll back mutations when an exception propagates. *)
Definition M (S A : Type) : Type := S → (Exn + A) * S.

Definition ret {S A} (a : A) : M S A := λ s, (inr a, s).

Definition raise {S A} (e : Exn) : M S A := λ s, (inl e, s).

Definition bind {S A B} (c : M S A) (k : A → M S B) : M S B :=
  λ s, match c s with
       | (inr a, s') => k a s'
       | (inl e, s') => (inl e, s')
       end.

Definition get {S} : M S S := λ s, (inr s, s).

Definition modify {S} (f : S → S) : M S unit := λ s, (inr tt, f s).

(** for x in xs: body(x) *)
Fixpoint for_ {S A} (xs : list A) (body : A → M S unit) : M S unit :=
  match xs with
  | [] => ret tt
  | x :: xs' => bind (body x) (λ _, for_ xs' body)
  end.

End Py.

Declare Scope py_scope.
Delimit Scope py_scope with py.
Notation "x <~ c ;; k" := (Py.bind c (λ x, k))
  (at level 100, c at next level, right associativity) : py_scope.
Notation "c ;; k" := (Py.bind c (λ _, k))
  (at level 100, right associativity) : py_scope.

(* ===================================================================== *)
(* 3. calendar and datetime                                              *)
(* ===================================================================== *)

(** calendar.isleap:
    year % 4 == 0 and (year % 100 != 0 or year % 400 == 0) *)
Definition isleap (year : Z) : bool :=
  (year mod 4 =? 0) && (negb (year mod 100 =? 0) || (year mod 400 =? 0)).

(** calendar.mdays = [0, 31, 28, 31, 30, 31, 30, 31, 31, 30, 31, 30, 31] *)
Definition mdays : list Z := [0; 31; 28; 31; 30; 31; 30; 31; 31; 30; 31; 30; 31].

Definition February : Z := 2.

(** calendar.monthrange(year, month)[1].  monthrange raises
    IllegalMonthError unless 1 <= month <= 12; the weekday of the first
    day, its component [0], is computed without raising for every year
    (years outside datetime's range are first mapped to 2000 + year % 400)
    and generate_schedule drops it. *)
Definition monthrange_ndays (year month : Z) : Exn + Z :=
  if negb ((1 <=? month) && (month <=? 12)) then inl (IllegalMonthError month)
  else inr (mdays !!! Z.to_nat month
            + (if (month =? February) && isleap year then 1 else 0)).

Definition MINYEAR : Z := 1.
Definition MAXYEAR : Z := 9999.

(** datetime._days_in_month *)
Definition days_in_month (year month : Z) : Z :=
  if (month =? 2) && isleap year then 29 else mdays !!! Z.to_nat month.

(** range(start, stop) *)
Definition range (start stop : Z) : list Z := seqZ start (stop - start).

(** The int and the long of C, as CPython has them on 64-bit Linux. *)
Definition INT_MIN : Z := -2147483648.
Definition INT_MAX : Z := 2147483647.
Definition LONG_MIN : Z := -9223372036854775808.
Definition LONG_MAX : Z := 9223372036854775807.

(** An argument of the date constructor.  CPython's datetime.date is
    written in C and takes its three arguments as C ints (format "iii"):
    the Python int is converted to a C long, then narrowed to an int,
    and each step raises OverflowError when the value does not fit. *)
Definition c_int_arg (n : Z) : Exn + Z :=
  if negb ((LONG_MIN <=? n) && (n <=? LONG_MAX))
  then inl (OverflowError "Python int too large to convert to C long")
  else if INT_MAX <? n
  then inl (OverflowError "signed integer is greater than maximum")
  else if n <? INT_MIN
  then inl (OverflowError "signed integer is less than minimum")
  else inr n.

(** A datetime.date: the constructor converts its three arguments in
    order, then checks the three fields in this order; the messages of
    the three ValueErrors are shortened. *)
Record date_t : Type := mkdate { d_year : Z; d_month : Z; d_day : Z }.

Definition date (year month day : Z) : Exn + date_t :=
  match c_int_arg year with
  | inl e => inl e
  | inr year =>
  match c_int_arg month with
  | inl e => inl e
  | inr month =>
  match c_int_arg day with
  | inl e => inl e
  | inr day =>
      if negb ((MINYEAR <=? year) && (year <=? MAXYEAR))
      then inl (ValueError "year is out of range")
      else if negb ((1 <=? month) && (month <=? 12))
      then inl (ValueError "month must be in 1..12")
      else if negb ((1 <=? day) && (day <=? days_in_month year month))
      then inl (ValueError "day is out of range for month")
      else inr (mkdate year month day)
  end end end.

(** The decimal digit of a number in 0..9. *)
Definition digit (n : Z) : ascii := ascii_of_nat (48 + Z.to_nat n).

(** %m and %d: two digits, zero padded. *)
Definition pad2 (n : Z) : string :=
  String (digit (n / 10 mod 10)) (String (digit (n mod 10)) "").

(** %Y: the year with century, four digits, zero padded (0001 .. 9999,
    as the datetime documentation gives it).  The C library decides for
    the years below 1000: glibc leaves them unpadded ("999-03-07").
    Either way every date of one month has a key of one length that
    differs from the others in its day, and from year 1000 on the two
    agree. *)
Definition pad4 (n : Z) : string :=
  String (digit (n / 1000 mod 10)) (String (digit (n / 100 mod 10))
    (pad2 n)).

(** d.strftime("%Y-%m-%d") *)
Definition strftime_Ymd (d : date_t) : string :=
  pad4 (d_year d) +:+ "-" +:+ pad2 (d_month d) +:+ "-" +:+ pad2 (d_day d).

(* ===================================================================== *)
(* 4. The roster: a pandas DataFrame                                     *)
(* ===================================================================== *)

(** A cell of the Availability column: a str, or a missing value
    (NaN / None). *)
Inductive cell : Type :=
  | Str (s : string)
  | NaN.

(** One row of the roster, with the four columns generate_schedule reads. *)
Record Row : Type := mkRow {
  Name : string;
  Role : string;
  Availability : cell;
  Paid : bool
}.

(** The dtype of the Availability column.  pandas holds a column with
    str cells (and possibly missing ones) at object dtype; a column read
    with every cell blank is a float64 column of NaN, so a float64 frame
    has no Str cell. *)
Inductive dtype : Type := object_ | float64.

Record DataFrame : Type := mkDataFrame {
  Availability_dtype : dtype;
  rows : list Row
}.

(** re.search with a pattern free of metacharacters ("AM", "Midday",
    "PM"): does [pat] occur in [s]?  Case sensitive. *)
Fixpoint contains (pat s : string) : bool :=
  String.prefix pat s ||
  match s with
  | EmptyString => false
  | String _ s' => contains pat s'
  end.

(** Series.str: pandas validates the column when the accessor is taken.
    The accessor is defined on an object column holding str and missing
    cells (also on an empty one) and raises AttributeError on a numeric
    column. *)
Definition str_accessor_msg : string :=
  "Can only use .str accessor with string values!".

Definition str_accessor (df : DataFrame) : Exn + list cell :=
  match Availability_dtype df with
  | object_ => inr (Availability <$> rows df)
  | float64 => inl (AttributeError str_accessor_msg)
  end.

(** .str.contains(pat, na=...): one boolean per cell, [na] for the
    missing ones. *)
Definition str_contains (pat : string) (na : bool) (col : list cell) : list bool :=
  (λ c, match c with Str s => contains pat s | NaN => na end) <$> col.

(** df[mask]: the rows whose mask entry is True, in the frame's order. *)
Fixpoint mask_rows (rs : list Row) (mask : list bool) : list Row :=
  match rs, mask with
  | r :: rs', b :: mask' =>
      if b then r :: mask_rows rs' mask' else mask_rows rs' mask'
  | _, _ => []
  end.

Definition getitem_mask (df : DataFrame) (mask : list bool) : DataFrame :=
  mkDataFrame (Availability_dtype df) (mask_rows (rows df) mask).

(** Line 43:
    self.staff_df[self.staff_df['Availability'].str.contains(shift, na=False)] *)
Definition available_frame (shift : string) (df : DataFrame) : Exn + DataFrame :=
  match str_accessor df with
  | inl e => inl e
  | inr col => inr (getitem_mask df (str_contains shift false col))
  end.

(** len(df) and df.empty *)
Definition len (df : DataFrame) : nat := length (rows df).
Definition empty (df : DataFrame) : bool := Nat.eqb (len df) 0.

(** RandomState.choice(a, size, replace=False): [size] positions drawn
    one after the other from the positions still in the pool, each draw
    taking the pool entry the random source points at. *)
Fixpoint choice_from (pool : list nat) (size : nat) (rs : RandomState)
  : list nat * RandomState :=
  match size with
  | O => ([], rs)
  | S size' =>
      let '(r, rs1) := next_draw rs in
      let i := (r mod length pool)%nat in
      match pool !! i with
      | Some x =>
          let '(locs, rs2) := choice_from (delete i pool) size' rs1 in
          (x :: locs, rs2)
      | None => ([], rs1)
      end
  end.

Definition choice (a size : nat) (rs : RandomState) : list nat * RandomState :=
  choice_from (seq 0 a) size rs.

(** df.take(locs), for positions within the frame (those choice gives
    are). *)
Definition take_rows (df : DataFrame) (locs : list nat) : DataFrame :=
  mkDataFrame (Availability_dtype df) (omap (λ i, rows df !! i) locs).

(** df.sample(n): n rows drawn without replacement, in drawn order;
    raises when n exceeds the number of rows. *)
Definition sample (df : DataFrame) (n : nat) (rs : RandomState)
  : (Exn + DataFrame) * RandomState :=
  if (len df <? n)%nat
  then (inl (ValueError "Cannot take a larger sample than population when 'replace=False'"), rs)
  else let '(locs, rs') := choice (len df) n rs in
       (inr (take_rows df locs), rs').

(* ===================================================================== *)
(* 5. The Scheduler                                                      *)
(* ===================================================================== *)

(** An entry of a slot's picks: (row['Name'], row['Role'], row['Paid']). *)
Definition Pick : Type := string * string * bool.

Definition pick_of (r : Row) : Pick := (Name r, Role r, Paid r).

Definition pick_name (p : Pick) : string := p.1.1.
Definition pick_role (p : Pick) : string := p.1.2.

(** The attributes of a Scheduler object.  [assignments] is the dict
    keyed by (day_key, shift); [violations] the list of messages. *)
Record Scheduler : Type := mkScheduler {
  staff_df : DataFrame;
  max_week_paid_hours : Z;
  max_hours_per_person : option Z;
  assignments : gmap (string * string) (list Pick);
  violations : list string
}.

(** Scheduler.__init__(staff_df, max_week_paid_hours=240,
                       max_hours_per_person=None) *)
Definition __init__ (staff_df : DataFrame) (max_week_paid_hours : Z)
    (max_hours_per_person : option Z) : Scheduler :=
  mkScheduler staff_df max_week_paid_hours max_hours_per_person ∅ [].

(** What generate_schedule runs on: the object and the random state. *)
Record World : Type := mkWorld {
  self : Scheduler;
  random_state : RandomState
}.

Definition set_assignments (f : gmap (string * string) (list Pick) →
                                gmap (string * string) (list Pick))
    (w : World) : World :=
  let s := self w in
  mkWorld (mkScheduler (staff_df s) (max_week_paid_hours s)
             (max_hours_per_person s) (f (assignments s)) (violations s))
          (random_state w).

Definition set_violations (f : list string → list string) (w : World) : World :=
  let s := self w in
  mkWorld (mkScheduler (staff_df s) (max_week_paid_hours s)
             (max_hours_per_person s) (assignments s) (f (violations s)))
          (random_state w).

(** Lifting of a call that can raise and leaves the world alone. *)
Definition lift {A} (r : Exn + A) : Py.M World A :=
  match r with
  | inl e => Py.raise e
  | inr a => Py.ret a
  end.

(** Lifting of a call that consumes draws of the random state. *)
Definition with_random {A} (f : RandomState → (Exn + A) * RandomState)
  : Py.M World A :=
  λ w, let '(r, rs') := f (random_state w) in (r, mkWorld (self w) rs').

(** f"{day_key} {shift}: missing role {needed}" *)
Definition missing_role_msg (day_key shift needed : string) : string :=
  day_key +:+ " " +:+ shift +:+ ": missing role " +:+ needed.

Section generate_schedule.
  Local Open Scope py_scope.

(** The body of [for shift in SHIFTS] (lines 43-54). *)
Definition slot_body (day_key shift : string) : Py.M World unit :=
  w <~ Py.get ;;
  available <~ lift (available_frame shift (staff_df (self w))) ;;
  picks <~ (if negb (empty available)
            then sampled <~ with_random (sample available (Nat.min 3 (len available))) ;;
                 Py.ret (pick_of <$> rows sampled)
            else Py.ret []) ;;
  Py.modify (set_assignments <[(day_key, shift) := picks]>) ;;
  let roles_present : gset string := list_to_set (pick_role <$> picks) in
  Py.for_ ROLES_NEEDED (λ needed,
    if decide (needed ∉ roles_present)
    then Py.modify (set_violations
                      (λ v, v ++ [missing_role_msg day_key shift needed]))
    else Py.ret tt).

(** The body of [for d in range(1, num_days + 1)] (lines 41-54). *)
Definition day_body (year month d : Z) : Py.M World unit :=
  dt <~ lift (date year month d) ;;
  let day_key := strftime_Ymd dt in
  Py.for_ SHIFTS (slot_body day_key).

(** Scheduler.generate_schedule(year, month) *)
Definition generate_schedule (year month : Z) : Py.M World unit :=
  Py.modify (set_assignments (λ _, ∅)) ;;
  Py.modify (set_violations (λ _, [])) ;;
  num_days <~ lift (monthrange_ndays year month) ;;
  Py.for_ (range 1 (num_days + 1)) (day_body year month).

End generate_schedule.

(* ===================================================================== *)
(* 6. Valid inputs, slots, and the state a run leaves                    *)
(* ===================================================================== *)

Definition valid_month (month : Z) : Prop := 1 ≤ month ≤ 12.
Definition valid_year (year : Z) : Prop := MINYEAR ≤ year ≤ MAXYEAR.

(** The key of day [d]: date(year, month, d).strftime("%Y-%m-%d"). *)
Definition day_key (year month d : Z) : string :=
  strftime_Ymd (mkdate year month d).

(** The frame line 43 gives when the Availability column has the .str
    accessor. *)
Definition filter_available (shift : string) (df : DataFrame) : DataFrame :=
  getitem_mask df (str_contains shift false (Availability <$> rows df)).

(** The record is available for [shift]: its Availability is a str in
    which the shift name occurs. *)
Definition lists_shift (shift : string) (r : Row) : Prop :=
  ∃ s a b, Availability r = Str s ∧ s = a +:+ shift +:+ b.

Definition lists_shiftb (shift : string) (r : Row) : bool :=
  match Availability r with
  | Str s => contains shift s
  | NaN => false
  end.

(** The picks of one slot and the random state left, as lines 43-48
    compute them from the roster. *)
Definition slot_picks (df : DataFrame) (shift : string) (rs : RandomState)
  : list Pick * RandomState :=
  let available := filter_available shift df in
  if empty available then ([], rs)
  else let '(locs, rs') := choice (len available) (Nat.min 3 (len available)) rs in
       (pick_of <$> rows (take_rows available locs), rs').

(** The required roles no pick of the slot has, in ROLES_NEEDED order. *)
Definition missing_roles (picks : list Pick) : list string :=
  filter (λ needed, needed ∉ pick_role <$> picks) ROLES_NEEDED.

Definition slot_violations (day_key shift : string) (picks : list Pick)
  : list string :=
  missing_role_msg day_key shift <$> missing_roles picks.

(** The world after the body of the shift loop has run for one slot. *)
Definition slot_step (slot : string * string) (w : World) : World :=
  let s := self w in
  let '(picks, rs') := slot_picks (staff_df s) slot.2 (random_state w) in
  mkWorld (mkScheduler (staff_df s) (max_week_paid_hours s)
             (max_hours_per_person s)
             (<[slot := picks]> (assignments s))
             (violations s ++ slot_violations slot.1 slot.2 picks))
          rs'.

(** The Availability column of the scheduler's roster is a string
    column: the .str accessor is defined on it. *)
Definition has_str (w : World) : Prop :=
  Availability_dtype (staff_df (self w)) = object_.

(** The slots of a month in the order the loops visit them: days
    ascending, and within a day the shifts in SHIFTS order. *)
Definition day_slots (year month d : Z) : list (string * string) :=
  (λ shift, (day_key year month d, shift)) <$> SHIFTS.

Definition month_slots (year month : Z) : list (string * string) :=
  range 1 (days_in_month year month + 1) ≫= day_slots year month.

(** The world after the slots of a list have been filled, one after the
    other. *)
Definition run_slots (slots : list (string * string)) (w : World) : World :=
  foldl (λ w slot, slot_step slot w) w slots.

(** The world after lines 36-37. *)
Definition cleared (w : World) : World :=
  set_violations (λ _, []) (set_assignments (λ _, ∅) w).

(** [picks] are the tuples of the rows of [avail] at the positions
    [locs], in that order. *)
Definition picked_at (avail : list Row) (locs : list nat) (picks : list Pick)
  : Prop :=
  Forall2 (λ i p, ∃ r, avail !! i = Some r ∧ p = pick_of r) locs picks.

(** Two worlds with the same roster, schedule and random state; the two
    limits may differ. *)
Definition same_schedule (w1 w2 : World) : Prop :=
  staff_df (self w1) = staff_df (self w2) ∧
  assignments (self w1) = assignments (self w2) ∧
  violations (self w1) = violations (self w2) ∧
  random_state w1 = random_state w2.

#[local] Instance valid_month_dec month : Decision (valid_month month).
Proof. unfold valid_month. apply _. Defined.

#[local] Instance valid_year_dec year : Decision (valid_year year).
Proof. unfold valid_year. apply _. Defined.

#[local] Instance dtype_eq_dec : EqDecision dtype.
Proof. solve_decision. Defined.

#[local] Instance has_str_dec w : Decision (has_str w).
Proof. unfold has_str. apply _. Defined.

(** The world a call leaves, in each of its four cases. *)
Definition final_world (year month : Z) (w : World) : World :=
  if decide (valid_month month ∧ valid_year year ∧ has_str w)
  then run_slots (month_slots year month) (cleared w)
  else cleared w.

(** What the date constructor raises for a year outside 1..9999, the
    month and the day being small: OverflowError for a year that does
    not fit a C int, ValueError for the others. *)
Definition year_error (year : Z) : Exn :=
  match c_int_arg year with
  | inl e => e
  | inr _ => ValueError "year is out of range"
  end.

(** The exception a call raises, if any, is told by the month, the year
    and the dtype alone. *)
Definition outcome (year month : Z) (w : World) : Exn + unit :=
  if decide (valid_month month) then
    if decide (valid_year year) then
      if decide (has_str w) then inr tt
      else inl (AttributeError str_accessor_msg)
    else inl (year_error year)
  else inl (IllegalMonthError month).

(* ===================================================================== *)
(* 7. The month grid of calendar.Calendar                                *)
(* ===================================================================== *)

(** datetime._DAYS_BEFORE_MONTH *)
Definition DAYS_BEFORE_MONTH : list Z :=
  [-1; 0; 31; 59; 90; 120; 151; 181; 212; 243; 273; 304; 334].

(** datetime._days_before_year *)
Definition days_before_year (year : Z) : Z :=
  let y := year - 1 in
  y * 365 + y / 4 - y / 100 + y / 400.

(** datetime._days_before_month *)
Definition days_before_month (year month : Z) : Z :=
  DAYS_BEFORE_MONTH !!! Z.to_nat month
  + (if (2 <? month) && isleap year then 1 else 0).

(** datetime._ymd2ord *)
Definition ymd2ord (year month day : Z) : Z :=
  days_before_year year + days_before_month year month + day.

(** date.toordinal() and date.weekday(): Monday is 0, Sunday is 6. *)
Definition toordinal (d : date_t) : Z :=
  ymd2ord (d_year d) (d_month d) (d_day d).

Definition date_weekday (d : date_t) : Z := (toordinal d + 6) mod 7.

(** calendar.weekday *)
Definition weekday (year month day : Z) : Exn + Z :=
  let year := if negb ((MINYEAR <=? year) && (year <=? MAXYEAR))
              then 2000 + year mod 400 else year in
  match date year month day with
  | inl e => inl e
  | inr d => inr (date_weekday d)
  end.

(** calendar.monthrange *)
Definition monthrange (year month : Z) : Exn + Z * Z :=
  if negb ((1 <=? month) && (month <=? 12)) then inl (IllegalMonthError month)
  else match weekday year month 1 with
       | inl e => inl e
       | inr day1 =>
           inr (day1, mdays !!! Z.to_nat month
                      + (if (month =? February) && isleap year then 1 else 0))
       end.

(** calendar._monthlen, _prevmonth, _nextmonth *)
Definition monthlen (year month : Z) : Z :=
  mdays !!! Z.to_nat month
  + (if (month =? February) && isleap year then 1 else 0).

Definition prevmonth (year month : Z) : Z * Z :=
  if month =? 1 then (year - 1, 12) else (year, month - 1).

Definition nextmonth (year month : Z) : Z * Z :=
  if month =? 12 then (year + 1, 1) else (year, month + 1).

(** Calendar(firstweekday).itermonthdays3(year, month), as the list of
    the tuples it yields: the tail of the previous month that completes
    the first week, the month, the head of the next month that completes
    the last week. *)
Definition itermonthdays3 (firstweekday year month : Z)
  : Exn + list (Z * Z * Z) :=
  match monthrange year month with
  | inl e => inl e
  | inr (day1, ndays) =>
      let days_before := (day1 - firstweekday) mod 7 in
      let days_after := (firstweekday - day1 - ndays) mod 7 in
      let '(y, m) := prevmonth year month in
      let end_ := monthlen y m + 1 in
      let '(y', m') := nextmonth year month in
      inr (((λ d, (y, m, d)) <$> range (end_ - days_before) end_)
           ++ ((λ d, (year, month, d)) <$> range 1 (ndays + 1))
           ++ ((λ d, (y', m', d)) <$> range 1 (days_after + 1)))
  end.

(** The dates a generator of datetime.date(y, m, d) yields when it is
    consumed whole: the first tuple the constructor refuses raises. *)
Fixpoint dates_of (ymds : list (Z * Z * Z)) : Exn + list date_t :=
  match ymds with
  | [] => inr []
  | (y, m, d) :: rest =>
      match date y m d with
      | inl e => inl e
      | inr dt =>
          match dates_of rest with
          | inl e => inl e
          | inr dts => inr (dt :: dts)
          end
      end
  end.

(** list(Calendar(firstweekday).itermonthdates(year, month)) *)
Definition itermonthdates (firstweekday year month : Z) : Exn + list date_t :=
  match itermonthdays3 firstweekday year month with
  | inl e => inl e
  | inr ymds => dates_of ymds
  end.

(** range(start, stop, step) for a positive step *)
Definition range_step (start stop step : Z) : list Z :=
  (λ k, start + k * step) <$> seqZ 0 ((stop - start + step - 1) / step).

(** xs[i:j] for 0 <= i <= j *)
Definition slice {A} (xs : list A) (i j : Z) : list A :=
  take (Z.to_nat (j - i)) (drop (Z.to_nat i) xs).

(** Calendar(firstweekday).monthdatescalendar(year, month):
    [dates[i:i+7] for i in range(0, len(dates), 7)] *)
Definition monthdatescalendar (firstweekday year month : Z)
  : Exn + list (list date_t) :=
  match itermonthdates firstweekday year month with
  | inl e => inl e
  | inr dates =>
      inr ((λ i, slice dates i (i + 7))
             <$> range_step 0 (Z.of_nat (length dates)) 7)
  end.

(** calendar.month_name in the C locale: a list of 13 entries, entry 0
    empty. *)
Definition month_name : list string :=
  [""; "January"; "February"; "March"; "April"; "May"; "June"; "July";
   "August"; "September"; "October"; "November"; "December"]%string.

(** xs[i] on a Python list: a negative index counts from the end; None
    stands for IndexError. *)
Definition getitem {A} (xs : list A) (i : Z) : option A :=
  let n := Z.of_nat (length xs) in
  if (0 <=? i) && (i <? n) then xs !! Z.to_nat i
  else if (- n <=? i) && (i <? 0) then xs !! Z.to_nat (n + i)
  else None.

(** A tuple the date constructor accepts as soon as its year is in
    range. *)
Definition ymd_ok (t : Z * Z * Z) : Prop :=
  valid_month t.1.2 ∧ 1 ≤ t.2 ≤ days_in_month t.1.1 t.1.2.

Definition date_of_ymd (t : Z * Z * Z) : date_t := mkdate t.1.1 t.1.2 t.2.

(** The weekday of the first day of the month, and the numbers of days
    of the neighbouring months that complete the first and the last week
    of a Sunday-first grid. *)
Definition first_weekday (year month : Z) : Z :=
  (ymd2ord year month 1 + 6) mod 7.

Definition days_before (year month : Z) : Z :=
  (first_weekday year month - 6) mod 7.

Definition days_after (year month : Z) : Z :=
  (6 - first_weekday year month - days_in_month year month) mod 7.

(** The tuples of a month with [db] days of the previous month before
    them and [da] days of the next month after them. *)
Definition grid_with (db da year month : Z) : list (Z * Z * Z) :=
  let '(y, m) := prevmonth year month in
  let end_ := days_in_month y m + 1 in
  let '(y', m') := nextmonth year month in
  ((λ d, (y, m, d)) <$> range (end_ - db) end_)
  ++ ((λ d, (year, month, d)) <$> range 1 (days_in_month year month + 1))
  ++ ((λ d, (y', m', d)) <$> range 1 (da + 1)).

(** The tuples of the Sunday-first grid of a month. *)
Definition month_grid (year month : Z) : list (Z * Z * Z) :=
  grid_with (days_before year month) (days_after year month) year month.

(** The two months whose Sunday-first grid reaches out of datetime's
    range of years. *)
Definition grid_in_range (year month : Z) : Prop :=
  ¬ (year = MINYEAR ∧ month = 1) ∧ ¬ (year = MAXYEAR ∧ month = 12).

#[local] Instance grid_in_range_dec year month :
  Decision (grid_in_range year month).
Proof. unfold grid_in_range. apply _. Defined.

(* ===================================================================== *)
(* 8. export_pdf: the document elements                                  *)
(* ===================================================================== *)

(** SHIFT_COLORS, with reportlab's colors by name. *)
Inductive color : Type := black | lightyellow | lightblue | lightgrey | whitesmoke.

#[local] Instance color_inhabited : Inhabited color := populate black.

Definition SHIFT_COLORS : gmap string color :=
  <["AM"%string := lightyellow]>
    (<["Midday"%string := lightblue]> (<["PM"%string := lightgrey]> ∅)).

(** A paragraph style: one of getSampleStyleSheet() by name, or a
    ParagraphStyle(name, parent=..., fontSize=..., leading=...,
    alignment=...) built from one. *)
Inductive ParagraphStyle : Type :=
  | sample_style (name : string)
  | derived_style (name : string) (parent : ParagraphStyle) (fontSize : Z)
      (leading alignment : option Z).

(** Paragraph(text, style) *)
Record Paragraph_t : Type := Paragraph {
  para_text : string;
  para_style : ParagraphStyle
}.

(** The commands of a TableStyle, cell coordinates as (column, row). *)
Inductive TableCmd : Type :=
  | BOX (start stop : Z * Z) (width : Q) (c : color)
  | INNERGRID (start stop : Z * Z) (width : Q) (c : color)
  | GRID (start stop : Z * Z) (width : Q) (c : color)
  | BACKGROUND (start stop : Z * Z) (c : color)
  | VALIGN (start stop : Z * Z) (align : string).

(** Table(data, colWidths=...) after setStyle(TableStyle(commands)). *)
Record Table_t (C : Type) : Type := Table {
  table_data : list (list C);
  table_colWidths : list Z;
  table_commands : list TableCmd
}.
Arguments Table {C}.
Arguments table_data {C}.
Arguments table_colWidths {C}.
Arguments table_commands {C}.

(** A cell of the month grid: a str, a Paragraph, or the nested table of
    a day. *)
Inductive Cell : Type :=
  | CellStr (s : string)
  | CellParagraph (p : Paragraph_t)
  | CellTable (t : Table_t Paragraph_t).

(** An entry of [elements]. *)
Inductive Flowable : Type :=
  | FlowParagraph (p : Paragraph_t)
  | FlowTable (t : Table_t Cell).

(** What export_pdf and main raise: IndexError from
    calendar.month_name[month], or one of the exceptions of [Exn]. *)
Inductive ExportExn : Type :=
  | IndexError (msg : string)
  | Raised (e : Exn).

(** sep.join(parts) *)
Fixpoint join (sep : string) (parts : list string) : string :=
  match parts with
  | [] => ""
  | [p] => p
  | p :: rest => p +:+ sep +:+ join sep rest
  end.

(** f"• {n} ({r}){' $' if paid else ''}" *)
Definition pick_line (p : Pick) : string :=
  let '(n, r, paid) := p in
  "• " +:+ n +:+ " (" +:+ r +:+ ")" +:+ (if paid : bool then " $" else "").

(** Lines 79-83: the lines of one shift in a day cell; a slot that is
    not a key of the dict reads as an empty one. *)
Definition shift_lines (a : gmap (string * string) (list Pick))
    (day_key shift : string) : list string :=
  let picks := default [] (a !! (day_key, shift)) in
  match picks with
  | _ :: _ => (shift +:+ ":") :: (pick_line <$> picks)
  | [] => [shift +:+ ": (unfilled)"]
  end.

Definition style_Normal : ParagraphStyle := sample_style "Normal".
Definition style_small : ParagraphStyle :=
  derived_style "small" style_Normal 7 (Some 8) None.
Definition style_daynum : ParagraphStyle :=
  derived_style "daynum" style_Normal 8 None (Some 2).

(** enumerate(xs, start) *)
Definition enumerate {A} (xs : list A) (start : Z) : list (Z * A) :=
  imap (λ i x, (start + Z.of_nat i, x)) xs.

(** Lines 76-89: the nested table of a day of the month.  SHIFT_COLORS
    has a key for each shift of SHIFTS, so that the lookup of line 88
    finds its colour. *)
Definition day_table (a : gmap (string * string) (list Pick)) (d : date_t)
  : Table_t Paragraph_t :=
  let day_key := strftime_Ymd d in
  let nested_rows :=
    [Paragraph (pretty (d_day d)) style_daynum]
    :: ((λ shift, [Paragraph (join "<br/>" (shift_lines a day_key shift))
                             style_small]) <$> SHIFTS) in
  let ts :=
    [BOX (0, 0) (-1, -1) 0.25 black; INNERGRID (0, 0) (-1, -1) 0.25 black]
    ++ ((λ '(idx, shift),
           BACKGROUND (0, idx) (-1, idx) (SHIFT_COLORS !!! shift))
          <$> enumerate SHIFTS 1) in
  Table nested_rows [100] ts.

(** Lines 72-90: the cell of a date of a week. *)
Definition day_cell (a : gmap (string * string) (list Pick)) (month : Z)
    (d : date_t) : Cell :=
  if negb (d_month d =? month) then CellStr ""
  else CellTable (day_table a d).

Definition day_names : list string :=
  ["Sun"; "Mon"; "Tue"; "Wed"; "Thu"; "Fri"; "Sat"]%string.

(** Lines 65-91: grid_data. *)
Definition grid_data (a : gmap (string * string) (list Pick)) (month : Z)
    (weeks : list (list date_t)) : list (list Cell) :=
  ((λ d, CellParagraph (Paragraph d (sample_style "Heading5"))) <$> day_names)
  :: ((λ week : list date_t, day_cell a month <$> week) <$> weeks).

(** Lines 102-104: the paragraph of the violations, when there are any. *)
Definition violations_paragraph (v : list string) : list Flowable :=
  match v with
  | _ :: _ =>
      let viol_text := join "<br/>" ((λ m, "• " +:+ m) <$> v) in
      [FlowParagraph (Paragraph ("<b>Violations</b><br/>" +:+ viol_text)
                                style_Normal)]
  | [] => []
  end.

(** Scheduler.export_pdf(filename, year, month), up to the call
    doc.build(elements): the list [elements] it hands to the document
    template of [filename].  What reportlab does with the elements and
    their markup is not part of the model. *)
Definition export_pdf (s : Scheduler) (filename : string) (year month : Z)
  : ExportExn + string * list Flowable :=
  match getitem month_name month with
  | None => inl (IndexError "list index out of range")
  | Some name =>
      let title := Paragraph ("<b>" +:+ name +:+ " " +:+ pretty year +:+ "</b>")
                             (sample_style "Title") in
      match monthdatescalendar 6 year month with
      | inl e => inl (Raised e)
      | inr weeks =>
          let main_table :=
            Table (grid_data (assignments s) month weeks)
                  (replicate 7 105)
                  [GRID (0, 0) (-1, -1) 0.6 black;
                   BACKGROUND (0, 0) (-1, 0) whitesmoke;
                   VALIGN (0, 0) (-1, -1) "TOP"] in
          inr (filename,
               [FlowParagraph title; FlowTable main_table]
               ++ violations_paragraph (violations s))
      end
  end.

(** calendar.day_abbr in the C locale, indexed by date.weekday(). *)
Definition day_abbr : list string :=
  ["Mon"; "Tue"; "Wed"; "Thu"; "Fri"; "Sat"; "Sun"]%string.

(** The nested table of a grid cell, if it has one. *)
Definition cell_table (c : Cell) : option (Table_t Paragraph_t) :=
  match c with
  | CellTable t => Some t
  | _ => None
  end.

(* ===================================================================== *)
(* 9. main: the press of "Generate Schedule"                             *)
(* ===================================================================== *)

(** What lines 124-135 put on the page: the download button with its
    file name and the document exported to the temporary file, the
    warning, and the st.text lines. *)
Record Page : Type := mkPage {
  download_file_name : string;
  download_document : string * list Flowable;
  warning : option string;
  texts : list string
}.

(** Lines 124-135 of main, for the roster read from the uploaded file,
    the values of the three number_input widgets and the name of the
    temporary file. *)
Definition main_generate (staff_df : DataFrame) (month year max_hours : Z)
    (tmp_name : string) (rs : RandomState) : ExportExn + Page * RandomState :=
  let sched := __init__ staff_df max_hours None in
  match generate_schedule year month (mkWorld sched rs) with
  | (inl e, _) => inl (Raised e)
  | (inr _, w) =>
      match export_pdf (self w) tmp_name year month with
      | inl e => inl e
      | inr doc =>
          let file_name :=
            "schedule_" +:+ pretty month +:+ "_" +:+ pretty year +:+ ".pdf" in
          let v := violations (self w) in
          inr (mkPage file_name doc
                 (match v with
                  | _ :: _ => Some "Some violations were detected:"
                  | [] => None
                  end)
                 v,
               random_state w)
      end
  end.

(** The values the widgets of lines 117-118 can give:
    number_input("Month", min_value=1, max_value=12) and
    number_input("Year", min_value=2020, max_value=2100). *)
Definition widget_values (month year : Z) : Prop :=
  1 ≤ month ≤ 12 ∧ 2020 ≤ year ≤ 2100.

(* ===================================================================== *)
(* 10. Rosters and worlds of the examples                                *)
(* ===================================================================== *)

Definition alice : Row := mkRow "Alice" "Full EMT" (Str "AM") true.
Definition bob : Row := mkRow "Bob" "Observer" (Str "AM,PM") false.
Definition carol : Row := mkRow "Carol" "Probationary EMT" NaN false.

Definition zeros : RandomState := mkRandomState (λ _, 0%nat) 0.

Definition run (df : DataFrame) (rs : RandomState) (year month : Z)
  : (Exn + unit) * World :=
  generate_schedule year month (mkWorld (__init__ df 240 None) rs).

(** The world the examples run on: a scheduler just built over a roster
    of three, and a random source that always draws 0. *)
Definition demo_df : DataFrame := mkDataFrame object_ [alice; bob; carol].
Definition demo_world : World := mkWorld (__init__ demo_df 240 None) zeros.

Definition dave : Row := mkRow "Dave" "Full EMT" (Str "AM, Midday") true.
Definition erin : Row := mkRow "Erin" "Observer" (Str "AM") false.

(** Four records available for AM. *)
Definition four_am_world : World :=
  mkWorld (__init__ (mkDataFrame object_ [alice; bob; carol; dave; erin]) 240 None)
          zeros.

(** The world after a first, successful call for January 2024. *)
Definition after_january : World := (generate_schedule 2024 1 demo_world).2.


(** A roster read from a sheet in which no Availability cell is filled
    in: the column is a float64 column of NaN. *)
Definition all_blank_df : DataFrame := mkDataFrame float64 [carol].

Definition all_blank_world : World :=
  mkWorld (__init__ all_blank_df 240 None) zeros.

(** A roster with no Probationary EMT. *)
Definition pair_world : World :=
  mkWorld (__init__ (mkDataFrame object_ [alice; bob]) 240 None) zeros.

(* ===================================================================== *)
(* 11. Runs on concrete rosters                                          *)
(* ===================================================================== *)

(** One record, available for AM only: it fills the AM slot, and the
    other two slots of the day are empty with all three roles missing. *)
Example alice_only_first_day :
  let r := run (mkDataFrame object_ [alice]) zeros 2024 1 in
  r.1 = inr tt ∧
  assignments (self r.2) !! ("2024-01-01", "AM")%string
  = Some [("Alice", "Full EMT", true)]%string ∧
  assignments (self r.2) !! ("2024-01-01", "Midday")%string = Some [] ∧
  assignments (self r.2) !! ("2024-01-01", "PM")%string = Some [] ∧
  take 8 (violations (self r.2))
  = ["2024-01-01 AM: missing role Probationary EMT";
     "2024-01-01 AM: missing role Observer";
     "2024-01-01 Midday: missing role Full EMT";
     "2024-01-01 Midday: missing role Probationary EMT";
     "2024-01-01 Midday: missing role Observer";
     "2024-01-01 PM: missing role Full EMT";
     "2024-01-01 PM: missing role Probationary EMT";
     "2024-01-01 PM: missing role Observer"]%string.
Proof. cbv zeta. split_and!; vm_compute; reflexivity. Qed.

Example run_feb_2023_size :
  size (assignments (self (run demo_df zeros 2023 2).2)) = 84%nat.
Proof. vm_compute. reflexivity. Qed.

Example run_feb_2023_slot :
  assignments (self (run demo_df zeros 2023 2).2)
    !! ("2023-02-01", "AM")%string
  = Some [("Alice", "Full EMT", true); ("Bob", "Observer", false)]%string.
Proof. vm_compute. reflexivity. Qed.

(* ===================================================================== *)
(* 12. Substring containment                                             *)
(* ===================================================================== *)

Lemma append_String (a : ascii) (s t : string) :
  String a s +:+ t = String a (s +:+ t).
Proof. reflexivity. Qed.

Lemma append_Empty (t : string) : "" +:+ t = t.
Proof. reflexivity. Qed.

Lemma prefix_true_iff (p s : string) :
  String.prefix p s = true ↔ ∃ t, s = p +:+ t.
Proof.
  revert s. induction p as [|a p IH]; intros s; simpl.
  - destruct s; split; eauto.
  - destruct s as [|b s]; simpl.
    + split; [discriminate | intros [t Ht]; discriminate].
    + destruct (Ascii.ascii_dec a b) as [->|Hab].
      * rewrite IH. split; intros [t Ht]; exists t;
          rewrite append_String in *; congruence.
      * split; [discriminate |].
        intros [t Ht]. rewrite append_String in Ht. congruence.
Qed.

Lemma contains_true_iff (p s : string) :
  contains p s = true ↔ ∃ a b, s = a +:+ p +:+ b.
Proof.
  induction s as [|c s IH]; cbn [contains].
  - rewrite orb_false_r, prefix_true_iff. split.
    + intros [t Ht]. exists ""%string, t. exact Ht.
    + intros [a [b Hab]]. destruct a; [eauto | discriminate].
  - rewrite orb_true_iff, prefix_true_iff, IH. split.
    + intros [[t Ht] | [a [b Hab]]].
      * exists ""%string, t. exact Ht.
      * exists (String c a), b. rewrite append_String. congruence.
    + intros [a [b Hab]]. destruct a as [|c' a].
      * left. eauto.
      * right. exists a, b. rewrite append_String in Hab. congruence.
Qed.

(* ===================================================================== *)
(* 13. Calendar facts                                                    *)
(* ===================================================================== *)

Lemma month_cases (month : Z) :
  valid_month month →
  month = 1 ∨ month = 2 ∨ month = 3 ∨ month = 4 ∨ month = 5 ∨ month = 6 ∨
  month = 7 ∨ month = 8 ∨ month = 9 ∨ month = 10 ∨ month = 11 ∨ month = 12.
Proof. unfold valid_month. lia. Qed.

Ltac each_month H :=
  destruct (month_cases _ H) as
    [->|[->|[->|[->|[->|[->|[->|[->|[->|[->|[->| ->]]]]]]]]]]].

Lemma monthrange_ndays_valid (year month : Z) :
  valid_month month →
  monthrange_ndays year month = inr (days_in_month year month).
Proof.
  intros Hm. unfold monthrange_ndays, days_in_month, February.
  each_month Hm; simpl; destruct (isleap year); reflexivity.
Qed.

Lemma monthrange_ndays_invalid (year month : Z) :
  ¬ valid_month month →
  monthrange_ndays year month = inl (IllegalMonthError month).
Proof.
  unfold valid_month, monthrange_ndays. intros Hm.
  destruct (1 <=? month) eqn:H1; destruct (month <=? 12) eqn:H2;
    simpl; try reflexivity; lia.
Qed.

Lemma days_in_month_bounds (year month : Z) :
  valid_month month → 28 ≤ days_in_month year month ≤ 31.
Proof.
  intros Hm. unfold days_in_month.
  each_month Hm; simpl; destruct (isleap year); simpl; lia.
Qed.

Lemma c_int_arg_fits (n : Z) : INT_MIN ≤ n ≤ INT_MAX → c_int_arg n = inr n.
Proof.
  unfold c_int_arg, INT_MIN, INT_MAX, LONG_MIN, LONG_MAX. intros Hn.
  destruct (-9223372036854775808 <=? n) eqn:E1; [|lia].
  destruct (n <=? 9223372036854775807) eqn:E2; [|lia].
  destruct (2147483647 <? n) eqn:E3; [lia|].
  destruct (n <? -2147483648) eqn:E4; [lia|].
  reflexivity.
Qed.

Lemma c_int_arg_overflow (n : Z) :
  ¬ INT_MIN ≤ n ≤ INT_MAX → ∃ msg, c_int_arg n = inl (OverflowError msg).
Proof.
  unfold c_int_arg, INT_MIN, INT_MAX, LONG_MIN, LONG_MAX. intros Hn.
  destruct (-9223372036854775808 <=? n) eqn:E1;
    destruct (n <=? 9223372036854775807) eqn:E2; simpl; eauto.
  destruct (2147483647 <? n) eqn:E3; eauto.
  destruct (n <? -2147483648) eqn:E4; eauto. lia.
Qed.

Lemma year_error_fits (year : Z) :
  INT_MIN ≤ year ≤ INT_MAX →
  year_error year = ValueError "year is out of range".
Proof. intros Hy. unfold year_error. by rewrite c_int_arg_fits. Qed.

Lemma year_error_overflow (year : Z) :
  ¬ INT_MIN ≤ year ≤ INT_MAX → ∃ msg, year_error year = OverflowError msg.
Proof.
  intros Hy. unfold year_error.
  destruct (c_int_arg_overflow year Hy) as [msg ->]. eauto.
Qed.


Lemma date_valid (year month d : Z) :
  valid_year year → valid_month month → 1 ≤ d ≤ days_in_month year month →
  date year month d = inr (mkdate year month d).
Proof.
  intros Hy Hm Hd. pose proof (days_in_month_bounds year month Hm) as Hb.
  unfold valid_year, valid_month in *. unfold date.
  rewrite !c_int_arg_fits
    by (unfold INT_MIN, INT_MAX, MINYEAR, MAXYEAR in *; lia).
  destruct (MINYEAR <=? year) eqn:E1; [|lia].
  destruct (year <=? MAXYEAR) eqn:E2; [|lia].
  destruct (1 <=? month) eqn:E3; [|lia].
  destruct (month <=? 12) eqn:E4; [|lia].
  destruct (1 <=? d) eqn:E5; [|lia].
  destruct (d <=? days_in_month year month) eqn:E6; [|lia].
  reflexivity.
Qed.

(** The year is converted and checked first: with a month and a day
    that fit a C int, a year outside 1..9999 decides the exception. *)
Lemma date_invalid_year (year month d : Z) :
  ¬ valid_year year →
  INT_MIN ≤ month ≤ INT_MAX → INT_MIN ≤ d ≤ INT_MAX →
  date year month d = inl (year_error year).
Proof.
  unfold valid_year, date, year_error. intros Hy Hm Hd.
  destruct (c_int_arg year) as [e|y] eqn:Ey; [reflexivity|].
  assert (y = year) as ->.
  { unfold c_int_arg in Ey. repeat case_match; congruence. }
  rewrite !c_int_arg_fits by done.
  destruct (MINYEAR <=? year) eqn:E1; destruct (year <=? MAXYEAR) eqn:E2;
    simpl; try reflexivity; lia.
Qed.

Lemma digit_inj (a b : Z) :
  0 ≤ a ≤ 9 → 0 ≤ b ≤ 9 → digit a = digit b → a = b.
Proof.
  intros Ha Hb H. unfold digit in H.
  apply (f_equal nat_of_ascii) in H.
  rewrite !nat_ascii_embedding in H by lia. lia.
Qed.

Lemma pad2_inj (a b : Z) :
  0 ≤ a < 100 → 0 ≤ b < 100 → pad2 a = pad2 b → a = b.
Proof.
  intros Ha Hb H. unfold pad2 in H. injection H as H1 H2.
  apply digit_inj in H1, H2;
    try (split; [apply Z.mod_pos_bound | apply Z.lt_succ_r, Z.mod_pos_bound]; lia).
  rewrite (Z.mod_small (a / 10)) in H1 by (split; [apply Z.div_pos | apply Z.div_lt_upper_bound]; lia).
  rewrite (Z.mod_small (b / 10)) in H1 by (split; [apply Z.div_pos | apply Z.div_lt_upper_bound]; lia).
  rewrite (Z.div_mod a 10), (Z.div_mod b 10) by lia. congruence.
Qed.

Lemma day_key_inj (year month d1 d2 : Z) :
  0 ≤ d1 < 100 → 0 ≤ d2 < 100 →
  day_key year month d1 = day_key year month d2 → d1 = d2.
Proof.
  intros H1 H2 H. unfold day_key, strftime_Ymd in H. simpl in H.
  repeat (apply (inj (String.app _)) in H).
  by apply pad2_inj.
Qed.

Example day_key_2024_02_29 : day_key 2024 2 29 = "2024-02-29"%string.
Proof. reflexivity. Qed.

Example days_in_month_leap :
  days_in_month 2024 2 = 29 ∧ days_in_month 2023 2 = 28 ∧
  days_in_month 1900 2 = 28 ∧ days_in_month 2000 2 = 29 ∧
  days_in_month 2025 11 = 30.
Proof. repeat split; reflexivity. Qed.

(* ===================================================================== *)
(* 14. The availability filter                                           *)
(* ===================================================================== *)

Lemma lists_shiftb_true (shift : string) (r : Row) :
  lists_shiftb shift r = true ↔ lists_shift shift r.
Proof.
  unfold lists_shiftb, lists_shift. destruct (Availability r) as [s|].
  - rewrite contains_true_iff. split.
    + intros (a & b & H). eauto.
    + intros (s' & a & b & [= <-] & H). eauto.
  - split; [discriminate | intros (s & a & b & H & _); discriminate].
Qed.

Lemma available_frame_ok (shift : string) (df : DataFrame) :
  Availability_dtype df = object_ →
  available_frame shift df = inr (filter_available shift df).
Proof. intros H. unfold available_frame, str_accessor. by rewrite H. Qed.

Lemma available_frame_no_str (shift : string) (df : DataFrame) :
  Availability_dtype df ≠ object_ →
  available_frame shift df = inl (AttributeError str_accessor_msg).
Proof.
  intros H. unfold available_frame, str_accessor.
  by destruct (Availability_dtype df).
Qed.

Lemma mask_rows_filter (shift : string) (rs : list Row) :
  mask_rows rs (str_contains shift false (Availability <$> rs))
  = List.filter (lists_shiftb shift) rs.
Proof.
  induction rs as [|r rs IH]; [reflexivity|].
  cbn [fmap list_fmap str_contains mask_rows List.filter].
  unfold str_contains in IH. rewrite IH.
  assert (E : lists_shiftb shift r
              = match Availability r with
                | Str s => contains shift s
                | NaN => false
                end) by reflexivity.
  rewrite E. destruct (Availability r); reflexivity.
Qed.

Lemma rows_filter_available (shift : string) (df : DataFrame) :
  rows (filter_available shift df) = List.filter (lists_shiftb shift) (rows df).
Proof. apply mask_rows_filter. Qed.

Lemma filter_sublist {A} (f : A → bool) (l : list A) :
  sublist (List.filter f l) l.
Proof.
  induction l as [|x l IH]; simpl; [constructor|].
  destruct (f x); by constructor.
Qed.

(* ===================================================================== *)
(* 15. Sampling without replacement                                      *)
(* ===================================================================== *)

Lemma choice_from_spec (size : nat) :
  ∀ (pool : list nat) (rs : RandomState),
    (size ≤ length pool)%nat → NoDup pool →
    let locs := (choice_from pool size rs).1 in
    length locs = size ∧ NoDup locs ∧ locs ⊆ pool.
Proof.
  induction size as [|size IH]; intros pool rs Hlen Hnd; simpl.
  - split; [reflexivity|]. split; [constructor | set_solver].
  - assert (Hi : (draws rs (cursor rs) mod length pool < length pool)%nat)
      by (apply Nat.mod_upper_bound; lia).
    set (i := (draws rs (cursor rs) mod length pool)%nat) in *.
    destruct (lookup_lt_is_Some_2 pool i Hi) as [x Hx]. rewrite Hx.
    pose proof (take_drop_middle pool i x Hx) as Hsplit.
    assert (Hdel : delete i pool = take i pool ++ drop (S i) pool)
      by apply delete_take_drop.
    destruct (IH (delete i pool)
                 (mkRandomState (draws rs) (S (cursor rs)))) as (H1 & H2 & H3).
    + rewrite length_delete by eauto. lia.
    + rewrite Hdel. rewrite <- Hsplit in Hnd.
      apply NoDup_app in Hnd as (Ha & Hb & Hc).
      apply NoDup_cons in Hc as [Hc1 Hc2].
      apply NoDup_app. split_and!; [done | | done].
      intros y Hy1 Hy2. apply (Hb y Hy1). by right.
    + destruct (choice_from (delete i pool) size _) as [locs rs2] eqn:E.
      simpl in *. split; [by f_equal|]. split.
      * apply NoDup_cons. split; [|done].
        intros Hin. apply H3 in Hin. rewrite Hdel in Hin.
        rewrite <- Hsplit in Hnd.
        apply NoDup_app in Hnd as (Ha & Hb & Hc).
        apply NoDup_cons in Hc as [Hc1 Hc2].
        apply elem_of_app in Hin as [Hin|Hin]; [|done].
        apply (Hb x Hin). by left.
      * intros y Hy. apply elem_of_cons in Hy as [->|Hy].
        -- eapply list_elem_of_lookup_2; eauto.
        -- apply H3 in Hy. rewrite Hdel in Hy. rewrite <- Hsplit.
           apply elem_of_app in Hy as [Hy|Hy]; apply elem_of_app;
             [by left | right; by right].
Qed.

Lemma choice_spec (a size : nat) (rs : RandomState) :
  (size ≤ a)%nat →
  let locs := (choice a size rs).1 in
  length locs = size ∧ NoDup locs ∧ Forall (λ i, (i < a)%nat) locs.
Proof.
  intros Hle. unfold choice.
  destruct (choice_from_spec size (seq 0 a) rs) as (H1 & H2 & H3).
  - by rewrite length_seq.
  - apply NoDup_seq.
  - split_and!; [done | done |].
    apply Forall_forall. intros i Hi. apply H3, elem_of_seq in Hi. lia.
Qed.

Lemma omap_lookup_total (l : list Row) (locs : list nat) :
  Forall (λ i, (i < length l)%nat) locs →
  Forall2 (λ i r, l !! i = Some r) locs (omap (λ i, l !! i) locs).
Proof.
  induction 1 as [|i locs Hi _ IH]; simpl; [constructor|].
  destruct (lookup_lt_is_Some_2 l i Hi) as [r Hr]. rewrite Hr.
  by constructor.
Qed.

(* ===================================================================== *)
(* 16. One slot                                                          *)
(* ===================================================================== *)

Lemma for_append_violations (P : string → Prop) `{!∀ x, Decision (P x)}
    (g : string → string) (l : list string) (w : World) :
  Py.for_ l (λ x, if decide (P x)
                  then Py.modify (set_violations (λ v, v ++ [g x]))
                  else Py.ret tt) w
  = (inr tt, set_violations (λ v, v ++ (g <$> filter P l)) w).
Proof.
  revert w. induction l as [|x l IH]; intros [[df mw mh asg v] rs].
  - unfold set_violations. simpl. by rewrite app_nil_r.
  - cbn [Py.for_]. unfold Py.bind. rewrite filter_cons.
    destruct (decide (P x)) as [HP|HP].
    + unfold Py.modify at 1. rewrite IH. unfold set_violations. simpl.
      by rewrite <- app_assoc.
    + unfold Py.ret at 1. by rewrite IH.
Qed.

Lemma missing_roles_set (picks : list Pick) :
  filter (λ needed, needed ∉ (list_to_set (pick_role <$> picks) : gset string))
         ROLES_NEEDED
  = missing_roles picks.
Proof.
  unfold missing_roles. apply list_filter_iff. intros needed.
  by rewrite elem_of_list_to_set.
Qed.

Lemma sample_ok (df : DataFrame) (n : nat) (rs : RandomState) :
  (n ≤ len df)%nat →
  sample df n rs
  = (inr (take_rows df (choice (len df) n rs).1), (choice (len df) n rs).2).
Proof.
  intros Hn. unfold sample.
  destruct (len df <? n)%nat eqn:E; [apply Nat.ltb_lt in E; lia|].
  by destruct (choice (len df) n rs).
Qed.

Lemma slot_body_ok (day_key shift : string) (w : World) :
  has_str w →
  slot_body day_key shift w = (inr tt, slot_step (day_key, shift) w).
Proof.
  destruct w as [[df mw mh asg v] rs]. unfold has_str. simpl. intros Hdt.
  unfold slot_body, slot_step, slot_picks.
  unfold Py.bind at 1. unfold Py.get. cbn [self staff_df random_state fst snd].
  rewrite available_frame_ok by done. unfold Py.bind at 1. cbn [lift Py.ret].
  set (available := filter_available shift df).
  destruct (empty available) eqn:Hemp; cbn [negb].
  - unfold Py.bind at 1. unfold Py.ret at 1.
    unfold Py.bind at 1. unfold Py.modify at 1.
    rewrite for_append_violations, missing_roles_set.
    reflexivity.
  - unfold Py.bind at 1. unfold Py.bind at 1. unfold with_random.
    cbn [random_state self].
    rewrite sample_ok by apply Nat.le_min_r.
    destruct (choice (len available) (Nat.min 3 (len available)) rs)
      as [locs rs'] eqn:Hc.
    cbn [fst snd Py.ret]. unfold Py.bind at 1. unfold Py.modify at 1.
    rewrite for_append_violations, missing_roles_set.
    reflexivity.
Qed.

Lemma slot_body_no_str (day_key shift : string) (w : World) :
  ¬ has_str w →
  slot_body day_key shift w = (inl (AttributeError str_accessor_msg), w).
Proof.
  destruct w as [[df mw mh asg v] rs]. unfold has_str. simpl. intros Hdt.
  unfold slot_body.
  unfold Py.bind at 1. unfold Py.get. cbn [self staff_df].
  rewrite available_frame_no_str by done.
  unfold Py.bind at 1. cbn [lift Py.raise]. reflexivity.
Qed.

Lemma slot_step_staff_df (slot : string * string) (w : World) :
  staff_df (self (slot_step slot w)) = staff_df (self w).
Proof. unfold slot_step. by destruct (slot_picks _ _ _). Qed.

Lemma slot_step_has_str (slot : string * string) (w : World) :
  has_str w → has_str (slot_step slot w).
Proof. unfold has_str. by rewrite slot_step_staff_df. Qed.

(* ===================================================================== *)
(* 17. The two loops                                                     *)
(* ===================================================================== *)

Lemma run_slots_app (l1 l2 : list (string * string)) (w : World) :
  run_slots (l1 ++ l2) w = run_slots l2 (run_slots l1 w).
Proof. apply foldl_app. Qed.

Lemma run_slots_staff_df (slots : list (string * string)) (w : World) :
  staff_df (self (run_slots slots w)) = staff_df (self w).
Proof.
  revert w. induction slots as [|x l IH]; intros w; [reflexivity|].
  simpl. by rewrite IH, slot_step_staff_df.
Qed.

Lemma run_slots_has_str (slots : list (string * string)) (w : World) :
  has_str w → has_str (run_slots slots w).
Proof. unfold has_str. by rewrite run_slots_staff_df. Qed.

Lemma for_shifts_ok (day_key : string) (shifts : list string) (w : World) :
  has_str w →
  Py.for_ shifts (slot_body day_key) w
  = (inr tt, run_slots ((λ shift, (day_key, shift)) <$> shifts) w).
Proof.
  revert w. induction shifts as [|sh l IH]; intros w Hw; [reflexivity|].
  cbn [Py.for_]. unfold Py.bind. rewrite slot_body_ok by done.
  rewrite IH by by apply slot_step_has_str. reflexivity.
Qed.

Lemma day_body_ok (year month d : Z) (w : World) :
  valid_year year → valid_month month → 1 ≤ d ≤ days_in_month year month →
  has_str w →
  day_body year month d w = (inr tt, run_slots (day_slots year month d) w).
Proof.
  intros Hy Hm Hd Hw. unfold day_body, Py.bind.
  rewrite date_valid by done. cbn [lift Py.ret].
  by rewrite for_shifts_ok.
Qed.

Lemma for_days_ok (year month : Z) (days : list Z) (w : World) :
  valid_year year → valid_month month →
  Forall (λ d, 1 ≤ d ≤ days_in_month year month) days →
  has_str w →
  Py.for_ days (day_body year month) w
  = (inr tt, run_slots (days ≫= day_slots year month) w).
Proof.
  intros Hy Hm Hds. revert w.
  induction Hds as [|d l Hd _ IH]; intros w Hw; [reflexivity|].
  cbn [Py.for_]. unfold Py.bind. rewrite day_body_ok by done.
  rewrite IH by by apply run_slots_has_str.
  by rewrite bind_cons, run_slots_app.
Qed.

Lemma range_bounds (n : Z) : Forall (λ d, 1 ≤ d ≤ n) (range 1 (n + 1)).
Proof.
  unfold range. apply Forall_forall. intros d Hd.
  apply elem_of_seqZ in Hd. lia.
Qed.

Lemma cleared_has_str (w : World) : has_str w ↔ has_str (cleared w).
Proof. reflexivity. Qed.

(** A run on a roster with the .str accessor, for a year and a month in
    range: no exception, and every slot of the month is filled in turn
    from the cleared state. *)
Lemma generate_schedule_ok (year month : Z) (w : World) :
  valid_year year → valid_month month → has_str w →
  generate_schedule year month w
  = (inr tt, run_slots (month_slots year month) (cleared w)).
Proof.
  intros Hy Hm Hw. unfold generate_schedule.
  unfold Py.bind at 1. unfold Py.modify at 1.
  unfold Py.bind at 1. unfold Py.modify at 1.
  unfold Py.bind at 1. rewrite monthrange_ndays_valid by done.
  cbn [lift Py.ret].
  rewrite (for_days_ok year month);
    [reflexivity | done | done | apply range_bounds | by apply cleared_has_str].
Qed.

(** A month out of range: monthrange raises, after the two clear()
    calls. *)
Lemma generate_schedule_bad_month (year month : Z) (w : World) :
  ¬ valid_month month →
  generate_schedule year month w = (inl (IllegalMonthError month), cleared w).
Proof.
  intros Hm. unfold generate_schedule.
  unfold Py.bind at 1. unfold Py.modify at 1.
  unfold Py.bind at 1. unfold Py.modify at 1.
  unfold Py.bind at 1. rewrite monthrange_ndays_invalid by done.
  reflexivity.
Qed.

Lemma range_first (n : Z) : 0 < n → range 1 (n + 1) = 1 :: range 2 (n + 1).
Proof.
  intros Hn. unfold range. rewrite seqZ_cons by lia.
  f_equal. f_equal. lia.
Qed.

(** A year out of datetime's range: the date constructor raises for the
    first day, after the two clear() calls. *)
Lemma generate_schedule_bad_year (year month : Z) (w : World) :
  valid_month month → ¬ valid_year year →
  generate_schedule year month w
  = (inl (year_error year), cleared w).
Proof.
  intros Hm Hy. unfold generate_schedule.
  unfold Py.bind at 1. unfold Py.modify at 1.
  unfold Py.bind at 1. unfold Py.modify at 1.
  unfold Py.bind at 1. rewrite monthrange_ndays_valid by done.
  cbn [lift Py.ret].
  rewrite range_first by (pose proof (days_in_month_bounds year month Hm); lia).
  cbn [Py.for_]. unfold Py.bind at 1. unfold day_body.
  unfold Py.bind at 1.
  rewrite date_invalid_year
    by (try done; unfold valid_month, INT_MIN, INT_MAX in *; lia).
  reflexivity.
Qed.

(** A roster whose Availability column has no .str accessor: the first
    slot raises, after the two clear() calls. *)
Lemma generate_schedule_no_str (year month : Z) (w : World) :
  valid_year year → valid_month month → ¬ has_str w →
  generate_schedule year month w
  = (inl (AttributeError str_accessor_msg), cleared w).
Proof.
  intros Hy Hm Hw. unfold generate_schedule.
  unfold Py.bind at 1. unfold Py.modify at 1.
  unfold Py.bind at 1. unfold Py.modify at 1.
  unfold Py.bind at 1. rewrite monthrange_ndays_valid by done.
  cbn [lift Py.ret].
  pose proof (days_in_month_bounds year month Hm) as Hb.
  rewrite range_first by lia.
  cbn [Py.for_]. unfold Py.bind at 1. unfold day_body.
  unfold Py.bind at 1. rewrite date_valid by (try done; lia).
  cbn [lift Py.ret]. cbn [SHIFTS Py.for_]. unfold Py.bind at 1.
  fold (cleared w).
  rewrite slot_body_no_str by by rewrite <- cleared_has_str.
  reflexivity.
Qed.

(* ===================================================================== *)
(* 18. The slots of a month                                              *)
(* ===================================================================== *)

Lemma elem_of_month_slots (year month : Z) (slot : string * string) :
  slot ∈ month_slots year month ↔
  ∃ d shift, 1 ≤ d ≤ days_in_month year month ∧ shift ∈ SHIFTS ∧
             slot = (day_key year month d, shift).
Proof.
  unfold month_slots, day_slots, range. rewrite list_elem_of_bind. split.
  - intros (d & Hs & Hd). apply list_elem_of_fmap in Hs as (sh & -> & Hsh).
    apply elem_of_seqZ in Hd. exists d, sh. split_and!; [lia | lia | done | done].
  - intros (d & sh & Hd & Hsh & ->). exists d. split.
    + by apply list_elem_of_fmap_2.
    + apply elem_of_seqZ. lia.
Qed.

Lemma NoDup_SHIFTS : NoDup SHIFTS.
Proof. apply (bool_decide_unpack _). by vm_compute. Qed.

Lemma NoDup_month_slots (year month : Z) :
  valid_month month → NoDup (month_slots year month).
Proof.
  intros Hm. pose proof (days_in_month_bounds year month Hm) as Hb.
  unfold month_slots, range. apply NoDup_bind.
  - intros d1 d2 slot Hd1 Hd2 H1 H2.
    apply elem_of_seqZ in Hd1, Hd2. unfold day_slots in H1, H2.
    apply list_elem_of_fmap in H1 as (sh1 & -> & _).
    apply list_elem_of_fmap in H2 as (sh2 & Hk & _).
    apply (f_equal fst) in Hk. cbn [fst] in Hk.
    apply day_key_inj in Hk; [done | lia | lia].
  - intros d _. unfold day_slots.
    apply NoDup_fmap_2; [|apply NoDup_SHIFTS].
    intros sh1 sh2 H. by apply (f_equal snd) in H.
  - apply NoDup_seqZ.
Qed.

Lemma length_bind_const {A B} (f : A → list B) (n : nat) (l : list A) :
  (∀ x, length (f x) = n) → length (l ≫= f) = (length l * n)%nat.
Proof.
  intros Hf. induction l as [|x l IH]; [reflexivity|].
  rewrite bind_cons, length_app, IH, Hf. simpl. lia.
Qed.

Lemma length_month_slots (year month : Z) :
  length (month_slots year month)
  = (Z.to_nat (days_in_month year month) * 3)%nat.
Proof.
  unfold month_slots, range.
  rewrite (length_bind_const _ 3) by reflexivity.
  rewrite length_seqZ. f_equal. lia.
Qed.

(* ===================================================================== *)
(* 19. The state a run leaves                                            *)
(* ===================================================================== *)

Lemma run_slots_snoc (l : list (string * string)) (x : string * string) (w : World) :
  run_slots (l ++ [x]) w = slot_step x (run_slots l w).
Proof. by rewrite run_slots_app. Qed.

Lemma slot_step_assignments (slot : string * string) (w : World) :
  assignments (self (slot_step slot w))
  = <[slot := (slot_picks (staff_df (self w)) slot.2 (random_state w)).1]>
      (assignments (self w)).
Proof. unfold slot_step. by destruct (slot_picks _ _ _). Qed.

Lemma slot_step_violations (slot : string * string) (w : World) :
  violations (self (slot_step slot w))
  = violations (self w)
    ++ slot_violations slot.1 slot.2
         (slot_picks (staff_df (self w)) slot.2 (random_state w)).1.
Proof. unfold slot_step. by destruct (slot_picks _ _ _). Qed.

Lemma slot_step_config (slot : string * string) (w : World) :
  max_week_paid_hours (self (slot_step slot w)) = max_week_paid_hours (self w) ∧
  max_hours_per_person (self (slot_step slot w)) = max_hours_per_person (self w).
Proof. unfold slot_step. by destruct (slot_picks _ _ _). Qed.

(** The keys of the dict after the slots have been filled. *)
Lemma run_slots_dom (l : list (string * string)) (w : World) :
  dom (assignments (self (run_slots l w)))
  = dom (assignments (self w)) ∪ list_to_set l.
Proof.
  induction l as [|x l IH] using rev_ind.
  - simpl. by rewrite (right_id_L ∅ (∪)).
  - rewrite run_slots_snoc, slot_step_assignments, dom_insert_L, IH.
    rewrite list_to_set_app_L. apply set_eq. intros k.
    cbn [list_to_set foldr].
    rewrite !elem_of_union, elem_of_singleton, elem_of_empty. tauto.
Qed.

(** Every slot filled holds picks that lines 43-48 computed for its
    shift, from the roster and some state of the random source. *)
Lemma run_slots_lookup (l : list (string * string)) (w : World)
    (slot : string * string) :
  slot ∈ l →
  ∃ rs, assignments (self (run_slots l w)) !! slot
        = Some (slot_picks (staff_df (self w)) slot.2 rs).1.
Proof.
  induction l as [|x l IH] using rev_ind; [by intros ?%elem_of_nil|].
  intros Hin. rewrite run_slots_snoc, slot_step_assignments.
  destruct (decide (x = slot)) as [->|Hne].
  - rewrite lookup_insert_eq, run_slots_staff_df. eauto.
  - rewrite lookup_insert_ne by done. apply IH.
    apply elem_of_app in Hin as [Hin|Hin]; [done|].
    apply list_elem_of_singleton in Hin. congruence.
Qed.

(** The violation list after the slots have been filled: what it held,
    then slot by slot the messages for the roles the slot's picks lack. *)
Lemma run_slots_violations (l : list (string * string)) (w : World) :
  NoDup l →
  violations (self (run_slots l w))
  = violations (self w)
    ++ (l ≫= λ slot, slot_violations slot.1 slot.2
                       (assignments (self (run_slots l w)) !!! slot)).
Proof.
  induction l as [|x l IH] using rev_ind; intros Hnd.
  - simpl. by rewrite app_nil_r.
  - apply NoDup_app in Hnd as (Hl & Hx & _).
    rewrite run_slots_snoc, slot_step_violations, slot_step_assignments.
    rewrite IH by done. rewrite bind_app, bind_singleton.
    rewrite lookup_total_insert_eq, <- app_assoc. do 2 f_equal.
    apply Forall_bind_ext, Forall_forall. intros slot Hslot. simpl.
    rewrite lookup_total_insert_ne; [done|].
    intros ->. apply (Hx slot Hslot). by left.
Qed.

(* ===================================================================== *)
(* 20. The picks of a slot                                               *)
(* ===================================================================== *)

Lemma slot_picks_spec (df : DataFrame) (shift : string) (rs : RandomState) :
  let avail := rows (filter_available shift df) in
  ∃ locs, length locs = Nat.min 3 (length avail) ∧ NoDup locs ∧
          picked_at avail locs (slot_picks df shift rs).1.
Proof.
  intros avail. unfold slot_picks, picked_at.
  destruct (empty (filter_available shift df)) eqn:Hemp.
  - exists []. apply Nat.eqb_eq in Hemp. unfold len in Hemp. fold avail in Hemp.
    rewrite Hemp. split_and!; [done | constructor | constructor].
  - unfold len. fold avail.
    pose proof (choice_spec (length avail) (Nat.min 3 (length avail)) rs
                  (Nat.le_min_r _ _)) as (H1 & H2 & H3).
    destruct (choice (length avail) (Nat.min 3 (length avail)) rs)
      as [locs rs'] eqn:Hc.
    cbn [fst snd] in *. exists locs. split_and!; [done | done |].
    apply Forall2_fmap_r. fold avail.
    eapply Forall2_impl; [by apply omap_lookup_total|].
    intros i r Hr. cbn beta in Hr. exists r. by split.
Qed.

Lemma picked_at_length (avail : list Row) (locs : list nat) (picks : list Pick) :
  picked_at avail locs picks → length picks = length locs.
Proof. intros H. symmetry. by eapply Forall2_length. Qed.

Lemma picked_at_elem_of (avail : list Row) (locs : list nat)
    (picks : list Pick) (p : Pick) :
  picked_at avail locs picks → p ∈ picks → ∃ r, r ∈ avail ∧ p = pick_of r.
Proof.
  induction 1 as [|i q locs picks (r & Hr & ->) _ IH]; [by intros ?%elem_of_nil|].
  intros [->|Hp]%elem_of_cons; [|by apply IH].
  exists r. split; [|done]. by eapply list_elem_of_lookup_2.
Qed.

Lemma picked_at_position {B} (g : Pick → B) (avail : list Row)
    (locs : list nat) (picks : list Pick) (i : nat) (r : Row) (q : Pick) :
  NoDup (g ∘ pick_of <$> avail) → picked_at avail locs picks →
  avail !! i = Some r → q ∈ picks → g (pick_of r) = g q → i ∈ locs.
Proof.
  intros Hav Hp Hr Hin Hq.
  induction Hp as [|j q' locs picks (r' & Hr' & ->) _ IH];
    [by apply elem_of_nil in Hin|].
  apply elem_of_cons. apply elem_of_cons in Hin as [->|Hin]; [left|right; auto].
  eapply (NoDup_lookup _ i j); [exact Hav | |].
  - rewrite list_lookup_fmap, Hr. reflexivity.
  - rewrite list_lookup_fmap, Hr'. simpl. by rewrite Hq.
Qed.

(** Distinct positions give distinct picks as soon as the rows of the
    frame can be told apart by what [g] reads of their tuple. *)
Lemma picked_at_NoDup {B} (g : Pick → B) (avail : list Row)
    (locs : list nat) (picks : list Pick) :
  NoDup (g ∘ pick_of <$> avail) → NoDup locs → picked_at avail locs picks →
  NoDup (g <$> picks).
Proof.
  intros Hav Hlocs Hp. revert Hlocs.
  induction Hp as [|i q locs picks (r & Hr & ->) Hrest IH]; intros Hlocs;
    [constructor|].
  apply NoDup_cons in Hlocs as [Hi Hlocs]. cbn [fmap list_fmap].
  apply NoDup_cons. split; [|by apply IH].
  intros Hin. apply list_elem_of_fmap in Hin as (q & Hq & Hin).
  apply Hi. by eapply (picked_at_position g avail locs picks i r q).
Qed.

Lemma filter_available_elem_of (shift : string) (df : DataFrame) (r : Row) :
  r ∈ rows (filter_available shift df) ↔ r ∈ rows df ∧ lists_shift shift r.
Proof.
  rewrite rows_filter_available, !list_elem_of_In, filter_In.
  by rewrite lists_shiftb_true.
Qed.

Lemma filter_available_sublist (shift : string) (df : DataFrame) :
  sublist (rows (filter_available shift df)) (rows df).
Proof. rewrite rows_filter_available. apply filter_sublist. Qed.

Lemma filter_available_NoDup {B} (g : Row → B) (shift : string) (df : DataFrame) :
  NoDup (g <$> rows df) → NoDup (g <$> rows (filter_available shift df)).
Proof.
  intros H. eapply sublist_NoDup; [exact H|].
  apply fmap_sublist, filter_available_sublist.
Qed.

(* ===================================================================== *)
(* 21. The violation messages                                            *)
(* ===================================================================== *)

Lemma append_inj_length (s1 s2 t1 t2 : string) :
  String.length s1 = String.length s2 →
  s1 +:+ t1 = s2 +:+ t2 → s1 = s2 ∧ t1 = t2.
Proof.
  revert s2. induction s1 as [|a s1 IH]; intros [|b s2] Hlen H;
    try discriminate.
  - by rewrite !append_Empty in H.
  - rewrite !append_String in H. injection H as -> H.
    destruct (IH s2) as [-> ->]; [by injection Hlen | done | done].
Qed.

Lemma length_day_key (year month d : Z) :
  String.length (day_key year month d) = 10%nat.
Proof. reflexivity. Qed.

Lemma elem_of_SHIFTS (shift : string) :
  shift ∈ SHIFTS ↔ shift = "AM"%string ∨ shift = "Midday"%string ∨ shift = "PM"%string.
Proof.
  unfold SHIFTS. rewrite !elem_of_cons, elem_of_nil. tauto.
Qed.

Lemma elem_of_ROLES_NEEDED (role : string) :
  role ∈ ROLES_NEEDED ↔
  role = "Full EMT"%string ∨ role = "Probationary EMT"%string ∨
  role = "Observer"%string.
Proof.
  unfold ROLES_NEEDED. rewrite !elem_of_cons, elem_of_nil. tauto.
Qed.

Lemma NoDup_ROLES_NEEDED : NoDup ROLES_NEEDED.
Proof. apply (bool_decide_unpack _). by vm_compute. Qed.

(** The message tells the slot and the role. *)
Lemma missing_role_msg_inj (k1 k2 sh1 sh2 n1 n2 : string) :
  String.length k1 = String.length k2 →
  sh1 ∈ SHIFTS → sh2 ∈ SHIFTS → n1 ∈ ROLES_NEEDED → n2 ∈ ROLES_NEEDED →
  missing_role_msg k1 sh1 n1 = missing_role_msg k2 sh2 n2 →
  k1 = k2 ∧ sh1 = sh2 ∧ n1 = n2.
Proof.
  intros Hlen Hs1 Hs2 Hn1 Hn2 H. unfold missing_role_msg in H.
  apply append_inj_length in H as [-> H]; [|done].
  split; [done|].
  apply elem_of_SHIFTS in Hs1, Hs2. apply elem_of_ROLES_NEEDED in Hn1, Hn2.
  destruct Hs1 as [->|[->| ->]]; destruct Hs2 as [->|[->| ->]];
    destruct Hn1 as [->|[->| ->]]; destruct Hn2 as [->|[->| ->]];
    first [by split | by vm_compute in H].
Qed.

Lemma missing_roles_subseteq (picks : list Pick) (needed : string) :
  needed ∈ missing_roles picks ↔
  needed ∈ ROLES_NEEDED ∧ needed ∉ pick_role <$> picks.
Proof. unfold missing_roles. rewrite list_elem_of_filter. tauto. Qed.

(** The messages of a month, whatever picks the slots hold, are pairwise
    distinct. *)
Lemma NoDup_month_violations (year month : Z)
    (picks_of : string * string → list Pick) :
  valid_month month →
  NoDup (month_slots year month ≫= λ slot,
           slot_violations slot.1 slot.2 (picks_of slot)).
Proof.
  intros Hm. apply NoDup_bind.
  - intros s1 s2 msg Hs1 Hs2 H1 H2.
    apply elem_of_month_slots in Hs1 as (d1 & sh1 & _ & Hsh1 & ->).
    apply elem_of_month_slots in Hs2 as (d2 & sh2 & _ & Hsh2 & ->).
    unfold slot_violations in H1, H2. cbn [fst snd] in H1, H2.
    apply list_elem_of_fmap in H1 as (n1 & -> & Hn1).
    apply list_elem_of_fmap in H2 as (n2 & Heq & Hn2).
    apply missing_roles_subseteq in Hn1 as [Hn1 _].
    apply missing_roles_subseteq in Hn2 as [Hn2 _].
    apply missing_role_msg_inj in Heq as (-> & -> & _); done.
  - intros [k sh] _. unfold slot_violations. cbn [fst snd].
    apply NoDup_fmap_2.
    + intros n1 n2 H. unfold missing_role_msg in H.
      by repeat (apply (inj (String.app _)) in H).
    + apply NoDup_filter, NoDup_ROLES_NEEDED.
  - by apply NoDup_month_slots.
Qed.

Lemma count_NoDup {A} `{EqDecision A} (x : A) (l : list A) :
  NoDup l →
  length (filter (λ y, y = x) l) = if decide (x ∈ l) then 1%nat else 0%nat.
Proof.
  induction 1 as [|y l Hy Hl IH]; [reflexivity|].
  rewrite filter_cons.
  destruct (decide (y = x)) as [->|Hne].
  - rewrite decide_True by by left. simpl. rewrite IH.
    by rewrite decide_False.
  - rewrite IH. destruct (decide (x ∈ l)) as [Hin|Hin].
    + by rewrite decide_True by by right.
    + rewrite decide_False; [done|].
      intros [?|?]%elem_of_cons; congruence.
Qed.

(* ===================================================================== *)
(* 22. What a run depends on                                             *)
(* ===================================================================== *)

Lemma slot_step_same_schedule (slot : string * string) (w1 w2 : World) :
  same_schedule w1 w2 → same_schedule (slot_step slot w1) (slot_step slot w2).
Proof.
  intros (Hdf & Ha & Hv & Hr). unfold same_schedule, slot_step.
  rewrite Hdf, Ha, Hv, Hr. by destruct (slot_picks _ _ _).
Qed.

Lemma run_slots_same_schedule (l : list (string * string)) (w1 w2 : World) :
  same_schedule w1 w2 → same_schedule (run_slots l w1) (run_slots l w2).
Proof.
  revert w1 w2. induction l as [|x l IH]; intros w1 w2 H; [done|].
  simpl. by apply IH, slot_step_same_schedule.
Qed.

Lemma run_slots_config (l : list (string * string)) (w : World) :
  max_week_paid_hours (self (run_slots l w)) = max_week_paid_hours (self w) ∧
  max_hours_per_person (self (run_slots l w)) = max_hours_per_person (self w).
Proof.
  revert w. induction l as [|x l IH]; intros w; [done|].
  simpl. destruct (IH (slot_step x w)) as [-> ->]. apply slot_step_config.
Qed.

Lemma cleared_same_schedule (w1 w2 : World) :
  staff_df (self w1) = staff_df (self w2) →
  random_state w1 = random_state w2 →
  same_schedule (cleared w1) (cleared w2).
Proof. intros Hdf Hr. by split_and!. Qed.

Lemma cleared_idemp (w : World) : cleared (cleared w) = cleared w.
Proof. reflexivity. Qed.

Lemma generate_schedule_final (year month : Z) (w : World) :
  (generate_schedule year month w).2 = final_world year month w.
Proof.
  unfold final_world.
  destruct (decide (valid_month month)) as [Hm|Hm].
  - destruct (decide (valid_year year)) as [Hy|Hy].
    + destruct (decide (has_str w)) as [Hw|Hw].
      * rewrite decide_True by done. by rewrite generate_schedule_ok.
      * rewrite decide_False by tauto. by rewrite generate_schedule_no_str.
    + rewrite decide_False by tauto. by rewrite generate_schedule_bad_year.
  - rewrite decide_False by tauto. by rewrite generate_schedule_bad_month.
Qed.

Lemma generate_schedule_outcome (year month : Z) (w : World) :
  (generate_schedule year month w).1 = outcome year month w.
Proof.
  unfold outcome.
  destruct (decide (valid_month month)) as [Hm|Hm].
  - destruct (decide (valid_year year)) as [Hy|Hy].
    + destruct (decide (has_str w)) as [Hw|Hw].
      * by rewrite generate_schedule_ok.
      * by rewrite generate_schedule_no_str.
    + by rewrite generate_schedule_bad_year.
  - by rewrite generate_schedule_bad_month.
Qed.

(* ===================================================================== *)
(* 23. The schedule of a month                                           *)
(* ===================================================================== *)

(** The dict a successful run leaves: its keys are the slots of the
    month. *)
Lemma month_run_dom (year month : Z) (w : World) :
  dom (assignments (self (run_slots (month_slots year month) (cleared w))))
  = list_to_set (month_slots year month).
Proof.
  rewrite run_slots_dom. cbn [cleared set_violations set_assignments self assignments].
  by rewrite dom_empty_L, (left_id_L ∅ (∪)).
Qed.

(** Its value at a slot: tuples of rows of the frame available for the
    shift, taken at min(3, len) distinct positions. *)
Lemma month_run_slot (year month : Z) (w : World) (d : Z) (shift : string) :
  1 ≤ d ≤ days_in_month year month → shift ∈ SHIFTS →
  let avail := rows (filter_available shift (staff_df (self w))) in
  ∃ picks locs,
    assignments (self (run_slots (month_slots year month) (cleared w)))
      !! (day_key year month d, shift) = Some picks ∧
    length locs = Nat.min 3 (length avail) ∧ NoDup locs ∧
    picked_at avail locs picks.
Proof.
  intros Hd Hsh avail.
  destruct (run_slots_lookup (month_slots year month) (cleared w)
              (day_key year month d, shift)) as [rs Hrs].
  { apply elem_of_month_slots. eauto. }
  destruct (slot_picks_spec (staff_df (self w)) shift rs) as (locs & H1 & H2 & H3).
  exists (slot_picks (staff_df (self w)) shift rs).1, locs.
  split_and!; done.
Qed.

Lemma month_run_size (year month : Z) (w : World) :
  valid_month month →
  size (assignments (self (run_slots (month_slots year month) (cleared w))))
  = (Z.to_nat (days_in_month year month) * 3)%nat.
Proof.
  intros Hm. rewrite <- size_dom, month_run_dom.
  rewrite size_list_to_set by by apply NoDup_month_slots.
  apply length_month_slots.
Qed.

Lemma month_run_keys (year month : Z) (w : World) (slot : string * string) :
  is_Some (assignments (self (run_slots (month_slots year month) (cleared w)))
             !! slot)
  ↔ slot ∈ month_slots year month.
Proof. by rewrite <- elem_of_dom, month_run_dom, elem_of_list_to_set. Qed.

Lemma month_run_slot_empty (year month : Z) (w : World) (d : Z)
    (shift : string) :
  1 ≤ d ≤ days_in_month year month → shift ∈ SHIFTS →
  rows (filter_available shift (staff_df (self w))) = [] →
  assignments (self (run_slots (month_slots year month) (cleared w)))
    !! (day_key year month d, shift) = Some [].
Proof.
  intros Hd Hsh Hnone.
  destruct (month_run_slot year month w d shift Hd Hsh)
    as (picks & locs & Hp & Hlen & _ & Hat).
  rewrite Hp. f_equal. apply picked_at_length in Hat.
  rewrite Hnone in Hlen. simpl in Hlen.
  apply nil_length_inv. congruence.
Qed.

Lemma month_run_violations (year month : Z) (w : World) :
  valid_month month →
  let wf := run_slots (month_slots year month) (cleared w) in
  violations (self wf)
  = month_slots year month ≫= λ slot,
      slot_violations slot.1 slot.2 (assignments (self wf) !!! slot).
Proof.
  intros Hm. cbv zeta.
  by rewrite run_slots_violations by by apply NoDup_month_slots.
Qed.

Ltac in_range := unfold valid_year, valid_month, MINYEAR, MAXYEAR; lia.

(** One entry per slot, on a roster with a string Availability column:
    for a year and a month in range generate_schedule returns normally
    and the assignments dict holds exactly numDays * 3 entries, numDays
    being what calendar.monthrange gives: its keys are exactly the slots
    (day, shift) for day 1..numDays and shift in SHIFTS, and a slot no
    record is available for is present with an empty picks list. *)
Theorem assignments_one_entry_per_slot (year month : Z) (w : World) :
  valid_year year → valid_month month → has_str w →
  let r := generate_schedule year month w in
  let a := assignments (self r.2) in
  r.1 = inr tt ∧
  monthrange_ndays year month = inr (days_in_month year month) ∧
  size a = (Z.to_nat (days_in_month year month) * 3)%nat ∧
  (∀ slot, is_Some (a !! slot) ↔
           ∃ d shift, 1 ≤ d ≤ days_in_month year month ∧ shift ∈ SHIFTS ∧
                      slot = (day_key year month d, shift)) ∧
  (∀ d shift, 1 ≤ d ≤ days_in_month year month → shift ∈ SHIFTS →
     rows (filter_available shift (staff_df (self w))) = [] →
     a !! (day_key year month d, shift) = Some []).
Proof.
  intros Hy Hm Hw. cbv zeta. rewrite generate_schedule_ok by done.
  cbn [fst snd]. split_and!.
  - reflexivity.
  - by apply monthrange_ndays_valid.
  - by apply month_run_size.
  - intros slot. rewrite month_run_keys. apply elem_of_month_slots.
  - intros d shift Hd Hsh Hnone. by apply month_run_slot_empty.
Qed.

Lemma assignments_one_entry_per_slot_witness :
  valid_year 2024 ∧ valid_month 2 ∧ has_str demo_world ∧
  size (assignments (self (generate_schedule 2024 2 demo_world).2)) = 87%nat.
Proof.
  assert (Hy : valid_year 2024) by in_range.
  assert (Hm : valid_month 2) by in_range.
  assert (Hw : has_str demo_world) by reflexivity.
  split_and!; [done | done | done |].
  exact (proj1 (proj2 (proj2
    (assignments_one_entry_per_slot 2024 2 demo_world Hy Hm Hw)))).
Defined.

(** C1, at a roster whose Availability cells are all missing (a float64
    column): January 2024 is a valid year and month, calendar.monthrange
    gives it 31 days, and generate_schedule raises AttributeError at the
    first slot, after the two clear() calls.  The assignments dict is
    left with no entry instead of 31 * 3 = 93: not even the first slot
    is present. *)
Theorem all_blank_roster_leaves_no_entries :
  let r := generate_schedule 2024 1 all_blank_world in
  valid_year 2024 ∧ valid_month 1 ∧
  monthrange_ndays 2024 1 = inr 31 ∧
  r.1 = inl (AttributeError str_accessor_msg) ∧
  size (assignments (self r.2)) = 0%nat ∧
  size (assignments (self r.2)) ≠ (Z.to_nat 31 * 3)%nat ∧
  assignments (self r.2) !! (day_key 2024 1 1, "AM"%string) = None.
Proof.
  cbv zeta.
  assert (Hy : valid_year 2024) by in_range.
  assert (Hm : valid_month 1) by in_range.
  assert (Hw : ¬ has_str all_blank_world) by (intros Hw; discriminate Hw).
  rewrite generate_schedule_no_str by done. cbn [fst snd].
  split_and!; done.
Qed.

(** C3: every slot of the month holds min(3, number of available
    records for its shift) picks; with four or more records available
    the slot holds exactly 3. *)
Theorem picks_count_is_min_3 (year month : Z) (w : World) (d : Z)
    (shift : string) :
  valid_year year → valid_month month → has_str w →
  1 ≤ d ≤ days_in_month year month → shift ∈ SHIFTS →
  let r := generate_schedule year month w in
  let available := filter_available shift (staff_df (self w)) in
  r.1 = inr tt ∧
  available_frame shift (staff_df (self w)) = inr available ∧
  ∃ picks,
    assignments (self r.2) !! (day_key year month d, shift) = Some picks ∧
    length picks = Nat.min 3 (len available) ∧
    ((4 ≤ len available)%nat → length picks = 3%nat).
Proof.
  intros Hy Hm Hw Hd Hsh. cbv zeta. rewrite generate_schedule_ok by done.
  cbn [fst snd]. split; [done|]. split; [by apply available_frame_ok|].
  destruct (month_run_slot year month w d shift Hd Hsh)
    as (picks & locs & Hp & Hlen & _ & Hat).
  exists picks. apply picked_at_length in Hat. unfold len.
  split_and!; [done | congruence |].
  intros H4. rewrite Hat, Hlen. lia.
Qed.

Lemma picks_count_is_min_3_witness :
  (len (filter_available "AM" (staff_df (self four_am_world))) = 4)%nat ∧
  ∃ picks,
    assignments (self (generate_schedule 2025 11 four_am_world).2)
      !! (day_key 2025 11 30, "AM"%string) = Some picks ∧
    length picks = 3%nat.
Proof.
  assert (Hy : valid_year 2025) by in_range.
  assert (Hm : valid_month 11) by in_range.
  assert (Hw : has_str four_am_world) by reflexivity.
  assert (Hd : 1 ≤ 30 ≤ days_in_month 2025 11) by (vm_compute; split; discriminate).
  assert (Hsh : "AM"%string ∈ SHIFTS) by (apply elem_of_SHIFTS; by left).
  split; [reflexivity|].
  destruct (picks_count_is_min_3 2025 11 four_am_world 30 "AM" Hy Hm Hw Hd Hsh)
    as (_ & _ & picks & Hp & Hlen & _).
  exists picks. split; [exact Hp | exact Hlen].
Defined.

(** C4, as the code has it: within one slot no roster row is picked
    twice.  The picks of a slot are the tuples of rows of the available
    frame taken at pairwise distinct positions (a sample without
    replacement), each of them a roster row that lists the shift; so a
    roster whose rows bear pairwise distinct names gives picks with
    pairwise distinct names, and a roster whose rows are pairwise
    distinct tuples gives pairwise distinct picks. *)
Theorem picks_without_replacement (year month : Z) (w : World) (d : Z)
    (shift : string) :
  valid_year year → valid_month month → has_str w →
  1 ≤ d ≤ days_in_month year month → shift ∈ SHIFTS →
  let r := generate_schedule year month w in
  let df := staff_df (self w) in
  let available := rows (filter_available shift df) in
  r.1 = inr tt ∧
  ∃ picks locs,
    assignments (self r.2) !! (day_key year month d, shift) = Some picks ∧
    NoDup locs ∧
    picked_at available locs picks ∧
    (NoDup (Name <$> rows df) → NoDup (pick_name <$> picks)) ∧
    (NoDup (pick_of <$> rows df) → NoDup picks).
Proof.
  intros Hy Hm Hw Hd Hsh. cbv zeta. rewrite generate_schedule_ok by done.
  cbn [fst snd]. split; [done|].
  destruct (month_run_slot year month w d shift Hd Hsh)
    as (picks & locs & Hp & _ & Hnd & Hat).
  exists picks, locs. split_and!; [done | done | done | |].
  - intros Hnames.
    eapply (picked_at_NoDup pick_name); [|exact Hnd|exact Hat].
    exact (filter_available_NoDup (pick_name ∘ pick_of) shift _ Hnames).
  - intros Hrows. rewrite <- (list_fmap_id picks).
    eapply (picked_at_NoDup id); [|exact Hnd|exact Hat].
    exact (filter_available_NoDup (id ∘ pick_of) shift _ Hrows).
Qed.

Lemma picks_without_replacement_witness :
  ∃ picks,
    assignments (self (generate_schedule 2025 11 four_am_world).2)
      !! (day_key 2025 11 1, "AM"%string) = Some picks ∧
    NoDup (pick_name <$> picks).
Proof.
  assert (Hy : valid_year 2025) by in_range.
  assert (Hm : valid_month 11) by in_range.
  assert (Hw : has_str four_am_world) by reflexivity.
  assert (Hd : 1 ≤ 1 ≤ days_in_month 2025 11) by (vm_compute; split; discriminate).
  assert (Hsh : "AM"%string ∈ SHIFTS) by (apply elem_of_SHIFTS; by left).
  assert (Hn : NoDup (Name <$> rows (staff_df (self four_am_world))))
    by (apply (bool_decide_unpack _); vm_compute; exact I).
  destruct (picks_without_replacement 2025 11 four_am_world 1 "AM"
              Hy Hm Hw Hd Hsh) as (_ & picks & locs & Hp & _ & _ & Hnames & _).
  exists picks. split; [exact Hp | exact (Hnames Hn)].
Defined.

(** C4 as stated fails: a roster that lists Alice in two rows, both
    available for AM.  The run for January 2024 returns normally and the
    AM slot of the first day holds both rows: the same staff member
    appears twice within the picks of one slot. *)
Lemma same_member_picked_twice :
  let r := run (mkDataFrame object_ [alice; alice]) zeros 2024 1 in
  r.1 = inr tt ∧
  ∃ picks,
    assignments (self r.2) !! (day_key 2024 1 1, "AM"%string) = Some picks ∧
    picks = [pick_of alice; pick_of alice] ∧
    ¬ NoDup (pick_name <$> picks) ∧
    ¬ NoDup picks.
Proof.
  cbv zeta. split; [vm_compute; reflexivity|].
  exists [pick_of alice; pick_of alice].
  split; [vm_compute; reflexivity|]. split; [reflexivity|].
  split; intros Hnd; apply NoDup_cons in Hnd as [Hnd _];
    apply Hnd; by left.
Qed.

(** A roster that lists the same tuple in two rows: both rows can be
    picked for one slot, and they are two equal entries of its picks. *)
Example duplicate_rows_both_picked :
  assignments (self (run (mkDataFrame object_ [alice; alice]) zeros 2024 1).2)
    !! ("2024-01-01", "AM")%string
  = Some [("Alice", "Full EMT", true); ("Alice", "Full EMT", true)]%string.
Proof. vm_compute. reflexivity. Qed.

(** C2: the violation list of a run is, slot after slot in loop order
    (days ascending, shifts in SHIFTS order) and within a slot in
    ROLES_NEEDED order, the message "<date> <shift>: missing role <role>"
    for each required role that no pick of the slot has.  So the message
    of a slot and a required role occurs exactly once in the list when
    the role is absent from the slot's picks, and not at all when it is
    present. *)
Theorem violations_slot_then_role (year month : Z) (w : World) :
  valid_year year → valid_month month → has_str w →
  let r := generate_schedule year month w in
  let a := assignments (self r.2) in
  let v := violations (self r.2) in
  r.1 = inr tt ∧
  v = (month_slots year month ≫= λ slot,
         missing_role_msg slot.1 slot.2 <$>
           filter (λ needed, needed ∉ pick_role <$> a !!! slot) ROLES_NEEDED) ∧
  (∀ d shift needed,
     1 ≤ d ≤ days_in_month year month → shift ∈ SHIFTS →
     needed ∈ ROLES_NEEDED →
     let slot := (day_key year month d, shift) in
     length (filter (λ m, m = missing_role_msg slot.1 slot.2 needed) v)
     = if decide (needed ∈ pick_role <$> a !!! slot) then 0%nat else 1%nat).
Proof.
  intros Hy Hm Hw. cbv zeta. rewrite generate_schedule_ok by done.
  cbn [fst snd]. set (wf := run_slots _ _).
  assert (Hv : violations (self wf)
               = month_slots year month ≫= λ slot,
                   slot_violations slot.1 slot.2 (assignments (self wf) !!! slot)).
  { by apply month_run_violations. }
  split; [done|]. split; [exact Hv|].
  intros d shift needed Hd Hsh Hn.
  rewrite count_NoDup by (rewrite Hv; by apply NoDup_month_violations).
  cbn [fst snd].
  set (slot := (day_key year month d, shift)).
  assert (Hslot : slot ∈ month_slots year month)
    by (apply elem_of_month_slots; eauto).
  destruct (decide (needed ∈ pick_role <$> assignments (self wf) !!! slot))
    as [Hin|Hin].
  - rewrite decide_False; [done|]. rewrite Hv. intros Hmsg.
    apply list_elem_of_bind in Hmsg as (slot' & Hmsg & Hslot').
    apply elem_of_month_slots in Hslot' as (d' & sh' & _ & Hsh' & ->).
    unfold slot_violations in Hmsg. cbn [fst snd] in Hmsg.
    apply list_elem_of_fmap in Hmsg as (n' & Heq & Hn').
    apply missing_roles_subseteq in Hn' as [Hn' Hmiss].
    destruct (missing_role_msg_inj
                (day_key year month d) (day_key year month d')
                shift sh' needed n' eq_refl Hsh Hsh' Hn Hn' Heq)
      as (Hk & -> & ->).
    apply Hmiss. unfold slot in Hin. by rewrite Hk in Hin.
  - rewrite decide_True; [done|]. rewrite Hv.
    apply list_elem_of_bind. exists slot. split; [|done].
    unfold slot_violations. apply list_elem_of_fmap_2.
    by apply missing_roles_subseteq.
Qed.

Lemma violations_slot_then_role_witness :
  take 4 (violations (self (generate_schedule 2024 2 demo_world).2))
  = ["2024-02-01 AM: missing role Probationary EMT";
     "2024-02-01 Midday: missing role Full EMT";
     "2024-02-01 Midday: missing role Probationary EMT";
     "2024-02-01 Midday: missing role Observer"]%string.
Proof.
  assert (Hy : valid_year 2024) by in_range.
  assert (Hm : valid_month 2) by in_range.
  assert (Hw : has_str demo_world) by reflexivity.
  destruct (violations_slot_then_role 2024 2 demo_world Hy Hm Hw)
    as (_ & Hv & _).
  rewrite Hv. vm_compute. reflexivity.
Defined.

(* ===================================================================== *)
(* 24. Failing calls and repeated calls                                  *)
(* ===================================================================== *)

Lemma final_world_staff_df (year month : Z) (w : World) :
  staff_df (self (final_world year month w)) = staff_df (self w).
Proof.
  unfold final_world. case_decide; [|done]. by rewrite run_slots_staff_df.
Qed.

Lemma final_world_config (year month : Z) (w : World) :
  max_week_paid_hours (self (final_world year month w))
  = max_week_paid_hours (self w) ∧
  max_hours_per_person (self (final_world year month w))
  = max_hours_per_person (self w).
Proof.
  unfold final_world. case_decide; [|done].
  destruct (run_slots_config (month_slots year month) (cleared w)) as [-> ->].
  done.
Qed.

Lemma final_world_dom (year month : Z) (w : World) :
  dom (assignments (self (final_world year month w)))
  = if decide (valid_month month ∧ valid_year year ∧ has_str w)
    then list_to_set (month_slots year month) else ∅.
Proof.
  unfold final_world. case_decide; [apply month_run_dom|].
  cbn [cleared set_violations set_assignments self assignments].
  apply dom_empty_L.
Qed.

Lemma final_world_has_str (year month : Z) (w : World) :
  has_str (final_world year month w) ↔ has_str w.
Proof. unfold has_str. by rewrite final_world_staff_df. Qed.

(** A call starts from the cleared state: what the dict and the list
    held before does not reach its result. *)
Lemma generate_schedule_cleared (year month : Z) (w : World) :
  generate_schedule year month w = generate_schedule year month (cleared w).
Proof. reflexivity. Qed.

(** C5, as the code has it: a month outside 1..12 makes
    generate_schedule raise calendar.IllegalMonthError to the caller.
    The two clear() calls of lines 36-37 have run by then: the
    assignments dict and the violation list are empty after the failing
    call, whatever they held before; roster, limits and random state are
    untouched.  On a scheduler that held no result the state is thus as
    before the call. *)
Theorem bad_month_raises_after_reset (year month : Z) (w : World) :
  ¬ valid_month month →
  let r := generate_schedule year month w in
  r.1 = inl (IllegalMonthError month) ∧
  assignments (self r.2) = ∅ ∧
  violations (self r.2) = [] ∧
  staff_df (self r.2) = staff_df (self w) ∧
  max_week_paid_hours (self r.2) = max_week_paid_hours (self w) ∧
  max_hours_per_person (self r.2) = max_hours_per_person (self w) ∧
  random_state r.2 = random_state w ∧
  (assignments (self w) = ∅ → violations (self w) = [] → r.2 = w).
Proof.
  intros Hm. cbv zeta. rewrite generate_schedule_bad_month by done.
  cbn [fst snd]. split_and!; try reflexivity.
  destruct w as [[df mw mh a v] rs]. simpl. by intros -> ->.
Qed.

Lemma bad_month_raises_after_reset_witness :
  ¬ valid_month 13 ∧
  (generate_schedule 2024 13 after_january).1 = inl (IllegalMonthError 13) ∧
  assignments (self (generate_schedule 2024 13 after_january).2) = ∅.
Proof.
  assert (Hm : ¬ valid_month 13) by in_range.
  split; [exact Hm|].
  destruct (bad_month_raises_after_reset 2024 13 after_january Hm)
    as (H1 & H2 & _).
  split; [exact H1 | exact H2].
Defined.

(** C5 as stated fails: after a successful run for January 2024, a call
    with month 13 raises, and the 93 entries and the violations of the
    first run are gone instead of being kept. *)
Lemma bad_month_loses_prior_results :
  let r := generate_schedule 2024 13 after_january in
  r.1 = inl (IllegalMonthError 13) ∧
  size (assignments (self after_january)) = 93%nat ∧
  size (assignments (self r.2)) = 0%nat ∧
  length (violations (self after_january)) = 186%nat ∧
  length (violations (self r.2)) = 0%nat ∧
  ¬ (assignments (self r.2) = assignments (self after_january) ∧
     violations (self r.2) = violations (self after_january)).
Proof.
  cbv zeta. split_and!; try (vm_compute; reflexivity).
  intros [H _]. apply (f_equal size) in H. vm_compute in H. discriminate.
Qed.

(** C6: a second call for the same year and month ends as the first did
    (normally, or with the same exception) and leaves a dict with the
    same key set and the same number of entries.  It gives exactly what
    a scheduler just built by __init__ would give from the same random
    state: nothing of the first run is carried over. *)
Theorem regenerate_same_slots (year month : Z) (w : World) :
  let r1 := generate_schedule year month w in
  let r2 := generate_schedule year month r1.2 in
  let fresh := __init__ (staff_df (self w)) (max_week_paid_hours (self w))
                    (max_hours_per_person (self w)) in
  r2.1 = r1.1 ∧
  dom (assignments (self r2.2)) = dom (assignments (self r1.2)) ∧
  size (assignments (self r2.2)) = size (assignments (self r1.2)) ∧
  r2 = generate_schedule year month (mkWorld fresh (random_state r1.2)).
Proof.
  cbv zeta.
  assert (Hdom : dom (assignments (self (generate_schedule year month
                   (generate_schedule year month w).2).2))
                 = dom (assignments (self (generate_schedule year month w).2))).
  { rewrite !generate_schedule_final, !final_world_dom.
    destruct (decide (valid_month month ∧ valid_year year ∧ has_str w))
      as [H|H].
    - rewrite decide_True; [done|]. by rewrite final_world_has_str.
    - rewrite decide_False; [done|]. by rewrite final_world_has_str. }
  split_and!.
  - rewrite !generate_schedule_outcome, generate_schedule_final.
    unfold outcome. repeat case_decide; try done;
      exfalso; rewrite final_world_has_str in *; tauto.
  - exact Hdom.
  - by rewrite <- !size_dom, Hdom.
  - rewrite generate_schedule_cleared.
    rewrite (generate_schedule_cleared _ _ (mkWorld _ _)). f_equal.
    rewrite generate_schedule_final.
    pose proof (final_world_staff_df year month w) as Hdf.
    destruct (final_world_config year month w) as [Hmw Hmh].
    destruct (final_world year month w) as [[df mw mh a v] rs].
    simpl in *. by subst.
Qed.

(** Two calls in a row can pick differently: here the second call for
    January 2024 starts from the draws the first one left. *)
Example regenerate_other_picks :
  let ones_then_zeros := mkRandomState (λ n, if (n <? 40)%nat then 1%nat else 0%nat) 0 in
  let w := mkWorld (__init__ demo_df 240 None) ones_then_zeros in
  let r1 := generate_schedule 2024 1 w in
  let r2 := generate_schedule 2024 1 r1.2 in
  assignments (self r1.2) !! ("2024-01-01", "AM")%string
  = Some [("Bob", "Observer", false); ("Alice", "Full EMT", true)]%string ∧
  assignments (self r2.2) !! ("2024-01-01", "AM")%string
  = Some [("Alice", "Full EMT", true); ("Bob", "Observer", false)]%string.
Proof. split; vm_compute; reflexivity. Qed.

(** C8: max_week_paid_hours and max_hours_per_person are stored by
    __init__ and never read by generate_schedule: two schedulers built
    over the same roster with different limits, run for the same year
    and month from the same random state, end the same way with the same
    assignments and the same violations (and leave the same random
    state); each keeps the limits it was built with. *)
Theorem limits_are_not_consulted (df : DataFrame) (mw1 mw2 : Z)
    (mh1 mh2 : option Z) (rs : RandomState) (year month : Z) :
  let r1 := generate_schedule year month (mkWorld (__init__ df mw1 mh1) rs) in
  let r2 := generate_schedule year month (mkWorld (__init__ df mw2 mh2) rs) in
  r1.1 = r2.1 ∧
  assignments (self r1.2) = assignments (self r2.2) ∧
  violations (self r1.2) = violations (self r2.2) ∧
  random_state r1.2 = random_state r2.2 ∧
  max_week_paid_hours (self r1.2) = mw1 ∧
  max_hours_per_person (self r1.2) = mh1 ∧
  max_week_paid_hours (self r2.2) = mw2 ∧
  max_hours_per_person (self r2.2) = mh2.
Proof.
  cbv zeta. set (w1 := mkWorld (__init__ df mw1 mh1) rs).
  set (w2 := mkWorld (__init__ df mw2 mh2) rs).
  rewrite !generate_schedule_outcome, !generate_schedule_final.
  destruct (final_world_config year month w1) as [Hc1 Hc1'].
  destruct (final_world_config year month w2) as [Hc2 Hc2'].
  assert (Hsame : same_schedule (final_world year month w1)
                                (final_world year month w2)).
  { unfold final_world.
    destruct (decide (valid_month month ∧ valid_year year ∧ has_str w1))
      as [H|H].
    - rewrite (decide_True (P := _ ∧ _ ∧ has_str w2)) by exact H.
      by apply run_slots_same_schedule.
    - rewrite (decide_False (P := _ ∧ _ ∧ has_str w2)) by exact H.
      done. }
  destruct Hsame as (_ & Ha & Hv & Hr).
  split_and!; done.
Qed.

(* ===================================================================== *)
(* 25. Availability, empty rosters and missing cells                     *)
(* ===================================================================== *)

(** The availability filter on a roster whose Availability column is a
    string column: line 43 for a shift of SHIFTS does not raise and gives
    exactly the rows whose Availability is a str in which the shift name
    occurs, in roster order and as often as the roster lists them; no
    qualifying row gives the empty frame.  A row with "AM,PM" is kept by
    the AM filter and by the PM filter. *)
Theorem availability_filter (shift : string) (df : DataFrame) :
  shift ∈ SHIFTS → Availability_dtype df = object_ →
  ∃ available,
    available_frame shift df = inr available ∧
    (∀ r, r ∈ rows available ↔
          r ∈ rows df ∧
          ∃ s a b, Availability r = Str s ∧ s = a +:+ shift +:+ b) ∧
    rows available = List.filter (lists_shiftb shift) (rows df) ∧
    (∀ r, lists_shiftb shift r = true ↔
          ∃ s a b, Availability r = Str s ∧ s = a +:+ shift +:+ b) ∧
    rows available `sublist_of` rows df ∧
    ((∀ r, r ∈ rows df → ¬ lists_shift shift r) → rows available = []) ∧
    (∀ r, r ∈ rows df → Availability r = Str "AM,PM" →
          shift = "AM"%string ∨ shift = "PM"%string → r ∈ rows available).
Proof.
  intros Hsh Hdt. exists (filter_available shift df). split_and!.
  - by apply available_frame_ok.
  - apply filter_available_elem_of.
  - apply rows_filter_available.
  - intros r. apply lists_shiftb_true.
  - apply filter_available_sublist.
  - intros Hnone.
    destruct (rows (filter_available shift df)) as [|r l] eqn:E; [done|].
    assert (Hr : r ∈ rows (filter_available shift df))
      by (rewrite E; by left).
    apply filter_available_elem_of in Hr as [Hr Hl].
    by destruct (Hnone r Hr).
  - intros r Hr Hav Hs. apply filter_available_elem_of. split; [done|].
    exists "AM,PM"%string. destruct Hs as [-> | ->].
    + by exists ""%string, ",PM"%string.
    + by exists "AM,"%string, ""%string.
Qed.

Lemma availability_filter_witness :
  ∃ available,
    available_frame "PM" demo_df = inr available ∧
    rows available = [bob].
Proof.
  assert (Hsh : "PM"%string ∈ SHIFTS)
    by (apply elem_of_SHIFTS; right; by right).
  assert (Hdt : Availability_dtype demo_df = object_) by reflexivity.
  destruct (availability_filter "PM" demo_df Hsh Hdt)
    as (available & Hav & _ & Hrows & _).
  exists available. split; [exact Hav|].
  rewrite Hrows. reflexivity.
Defined.

(** C7, at a roster whose Availability cells are all missing (a float64
    column): no record lists any shift, so the records that qualify are
    none for each of the three shifts, and the filter of line 43 raises
    AttributeError for each of them instead of giving the empty
    frame. *)
Theorem all_blank_filter_raises :
  (∀ shift r, r ∈ rows all_blank_df → ¬ lists_shift shift r) ∧
  (∀ shift, List.filter (lists_shiftb shift) (rows all_blank_df) = []) ∧
  available_frame "AM" all_blank_df = inl (AttributeError str_accessor_msg) ∧
  available_frame "Midday" all_blank_df
  = inl (AttributeError str_accessor_msg) ∧
  available_frame "PM" all_blank_df = inl (AttributeError str_accessor_msg).
Proof.
  split_and!; try reflexivity.
  intros shift r Hr (s & a & b & Hs & _).
  apply list_elem_of_singleton in Hr as ->. discriminate Hs.
Qed.

(** The match is case sensitive, and a name that occurs inside another
    word counts. *)
Example contains_examples :
  contains "AM" "AM,PM" = true ∧ contains "PM" "AM,PM" = true ∧
  contains "Midday" "AM,PM" = false ∧ contains "AM" "am" = false ∧
  contains "AM" "Midday" = false ∧ contains "PM" "RPM only" = true.
Proof. repeat split; reflexivity. Qed.



(** On a roster with a string Availability column, a record whose
    Availability is missing is kept by no shift's filter, and every pick
    of every slot is the tuple of a roster row whose Availability is a
    str naming the slot's shift; the run does not raise. *)
Lemma missing_availability_never_picked (year month : Z) (w : World) :
  valid_year year → valid_month month → has_str w →
  let r := generate_schedule year month w in
  let df := staff_df (self w) in
  r.1 = inr tt ∧
  (∀ row shift, Availability row = NaN →
     row ∉ rows (filter_available shift df)) ∧
  (∀ slot picks p,
     assignments (self r.2) !! slot = Some picks → p ∈ picks →
     ∃ row s, row ∈ rows df ∧ p = pick_of row ∧
              Availability row = Str s ∧ contains slot.2 s = true).
Proof.
  intros Hy Hm Hw. cbv zeta. rewrite generate_schedule_ok by done.
  cbn [fst snd]. split_and!; [done | |].
  - intros row shift Hnan Hin.
    apply filter_available_elem_of in Hin as (_ & s & a & b & Hs & _).
    congruence.
  - intros slot picks p Hp Hin.
    assert (Hslot : slot ∈ month_slots year month)
      by (apply (month_run_keys year month w); by eexists).
    apply elem_of_month_slots in Hslot as (d & sh & Hd & Hsh & ->).
    destruct (month_run_slot year month w d sh Hd Hsh)
      as (picks' & locs & Hp' & _ & _ & Hat).
    rewrite Hp in Hp'. injection Hp' as <-.
    destruct (picked_at_elem_of _ _ _ p Hat Hin) as (row & Hrow & ->).
    apply filter_available_elem_of in Hrow as (Hrow & Hlists).
    apply lists_shiftb_true in Hlists. unfold lists_shiftb in Hlists.
    destruct (Availability row) as [s|] eqn:Hs; [|discriminate].
    exists row, s. by split_and!.
Qed.

(** C10, at a roster whose Availability cells are all missing: the
    column is numeric, the .str accessor of line 43 raises
    AttributeError at the first slot, and generate_schedule ends with
    that exception instead of treating the record as available for no
    shift. *)
Theorem all_blank_availability_raises :
  let r := generate_schedule 2024 1 (mkWorld (__init__ all_blank_df 240 None) zeros) in
  Availability <$> rows all_blank_df = [NaN] ∧
  r.1 = inl (AttributeError str_accessor_msg) ∧
  assignments (self r.2) = ∅ ∧
  violations (self r.2) = [].
Proof. cbv zeta. split_and!; vm_compute; reflexivity. Qed.

(** The same record next to one with a str Availability: the column is
    an object column, the run succeeds and never picks the record. *)
Example blank_among_strings_is_skipped :
  let r := generate_schedule 2024 1 (mkWorld (__init__ (mkDataFrame object_ [carol; alice]) 240 None) zeros) in
  r.1 = inr tt ∧
  assignments (self r.2) !! ("2024-01-01", "AM")%string
  = Some [("Alice", "Full EMT", true)]%string ∧
  assignments (self r.2) !! ("2024-01-01", "PM")%string = Some [].
Proof. cbv zeta. split_and!; vm_compute; reflexivity. Qed.

(* ===================================================================== *)
(* 26. The month grid                                                    *)
(* ===================================================================== *)

Lemma monthlen_days_in_month (year month : Z) :
  valid_month month → monthlen year month = days_in_month year month.
Proof.
  intros Hm. unfold monthlen, days_in_month, February.
  each_month Hm; simpl; destruct (isleap year); reflexivity.
Qed.

Lemma isleap_true_iff (year : Z) :
  isleap year = true ↔
  year mod 4 = 0 ∧ (year mod 100 ≠ 0 ∨ year mod 400 = 0).
Proof.
  unfold isleap.
  rewrite andb_true_iff, orb_true_iff, negb_true_iff, !Z.eqb_eq, Z.eqb_neq.
  done.
Qed.

(** The ordinal of January 1st moves on by the length of the year. *)
Lemma days_before_year_succ (year : Z) :
  days_before_year (year + 1)
  = days_before_year year + 365 + (if isleap year then 1 else 0).
Proof.
  unfold days_before_year. cbv zeta.
  replace (year + 1 - 1) with year by lia.
  destruct (isleap year) eqn:E.
  - apply isleap_true_iff in E. Z.div_mod_to_equations. lia.
  - assert (H : ¬ (year mod 4 = 0 ∧ (year mod 100 ≠ 0 ∨ year mod 400 = 0))).
    { rewrite <- isleap_true_iff. congruence. }
    Z.div_mod_to_equations. lia.
Qed.

(** The first day of the next month follows the last day of the month. *)
Lemma first_of_next_month (year month : Z) :
  valid_month month →
  ymd2ord (nextmonth year month).1 (nextmonth year month).2 1
  = ymd2ord year month 1 + days_in_month year month.
Proof.
  intros Hm. unfold ymd2ord, nextmonth, days_before_month, days_in_month.
  each_month Hm; cbn [Z.eqb Pos.eqb fst snd];
    try (simpl; destruct (isleap year); simpl; lia).
  rewrite days_before_year_succ. simpl. destruct (isleap year); simpl; lia.
Qed.

Lemma nextmonth_prevmonth (year month : Z) :
  valid_month month →
  nextmonth (prevmonth year month).1 (prevmonth year month).2 = (year, month).
Proof.
  intros Hm. unfold nextmonth, prevmonth.
  each_month Hm; simpl; f_equal; lia.
Qed.

Lemma prevmonth_valid (year month : Z) :
  valid_month month → valid_month (prevmonth year month).2.
Proof. intros Hm. unfold prevmonth. each_month Hm; simpl; unfold valid_month; lia. Qed.

Lemma nextmonth_valid (year month : Z) :
  valid_month month → valid_month (nextmonth year month).2.
Proof. intros Hm. unfold nextmonth. each_month Hm; simpl; unfold valid_month; lia. Qed.

Lemma last_of_prev_month (year month : Z) :
  valid_month month →
  ymd2ord (prevmonth year month).1 (prevmonth year month).2 1
  + days_in_month (prevmonth year month).1 (prevmonth year month).2
  = ymd2ord year month 1.
Proof.
  intros Hm.
  rewrite <- (first_of_next_month _ _ (prevmonth_valid year month Hm)).
  by rewrite nextmonth_prevmonth.
Qed.

Lemma valid_year_normal (year : Z) : valid_year (2000 + year mod 400).
Proof.
  unfold valid_year, MINYEAR, MAXYEAR.
  pose proof (Z.mod_pos_bound year 400). lia.
Qed.

(** monthrange raises for no year: the weekday of the first day is
    computed in a year of the same 400-year cycle when the year is out
    of datetime's range. *)
Lemma monthrange_ok (year month : Z) :
  valid_month month →
  ∃ day1, monthrange year month = inr (day1, days_in_month year month) ∧
          0 ≤ day1 < 7 ∧
          (valid_year year → day1 = (ymd2ord year month 1 + 6) mod 7).
Proof.
  intros Hm. unfold monthrange.
  assert (Hb : negb ((1 <=? month) && (month <=? 12)) = false).
  { unfold valid_month in Hm. apply negb_false_iff, andb_true_iff.
    split; apply Z.leb_le; lia. }
  rewrite Hb. fold (monthlen year month). rewrite monthlen_days_in_month by done.
  unfold weekday.
  set (year' := if negb ((MINYEAR <=? year) && (year <=? MAXYEAR))
                then 2000 + year mod 400 else year).
  assert (Hy' : valid_year year').
  { unfold year'.
    destruct (negb ((MINYEAR <=? year) && (year <=? MAXYEAR))) eqn:E;
      [apply valid_year_normal|].
    apply negb_false_iff, andb_true_iff in E as [E1 E2].
    apply Z.leb_le in E1, E2. by split. }
  rewrite date_valid; [|done|done|].
  2:{ pose proof (days_in_month_bounds year' month Hm). lia. }
  eexists. split; [reflexivity|]. split.
  - apply Z.mod_pos_bound. lia.
  - intros Hy. unfold year'.
    assert (E : negb ((MINYEAR <=? year) && (year <=? MAXYEAR)) = false).
    { destruct Hy. apply negb_false_iff, andb_true_iff.
      split; by apply Z.leb_le. }
    rewrite E. reflexivity.
Qed.

Lemma monthrange_ndays_agree (year month : Z) :
  match monthrange year month with
  | inl e => inl e
  | inr p => inr p.2
  end = monthrange_ndays year month.
Proof.
  destruct (decide (1 ≤ month ≤ 12)) as [Hm|Hm].
  - destruct (monthrange_ok year month Hm) as (day1 & -> & _).
    by rewrite monthrange_ndays_valid.
  - rewrite monthrange_ndays_invalid by done.
    unfold monthrange.
    destruct (1 <=? month) eqn:H1; destruct (month <=? 12) eqn:H2;
      simpl; try reflexivity; lia.
Qed.

Lemma dates_of_ok (l : list (Z * Z * Z)) :
  Forall (λ t, valid_year t.1.1 ∧ ymd_ok t) l →
  dates_of l = inr (date_of_ymd <$> l).
Proof.
  induction 1 as [|[[y m] d] l (Hy & Hm & Hd) _ IH]; [reflexivity|].
  cbn [dates_of]. simpl in Hy, Hm, Hd.
  by rewrite date_valid, IH.
Qed.




Lemma itermonthdays3_grid (year month : Z) :
  valid_month month →
  ∃ db da, 0 ≤ db < 7 ∧ 0 ≤ da < 7 ∧
           itermonthdays3 6 year month = inr (grid_with db da year month) ∧
           (valid_year year →
            db = days_before year month ∧ da = days_after year month).
Proof.
  intros Hm. unfold itermonthdays3, grid_with.
  destruct (monthrange_ok year month Hm) as (day1 & -> & _ & Hd1).
  exists ((day1 - 6) mod 7), ((6 - day1 - days_in_month year month) mod 7).
  split; [apply Z.mod_pos_bound; lia|].
  split; [apply Z.mod_pos_bound; lia|]. split.
  - pose proof (prevmonth_valid year month Hm) as Hp.
    destruct (prevmonth year month) as [y m]. simpl in Hp.
    rewrite monthlen_days_in_month by done.
    by destruct (nextmonth year month) as [y' m'].
  - intros Hy. by rewrite (Hd1 Hy).
Qed.

Lemma days_before_bounds (year month : Z) : 0 ≤ days_before year month < 7.
Proof. apply Z.mod_pos_bound. lia. Qed.

Lemma days_after_bounds (year month : Z) : 0 ≤ days_after year month < 7.
Proof. apply Z.mod_pos_bound. lia. Qed.

Lemma itermonthdays3_sunday (year month : Z) :
  valid_year year → valid_month month →
  itermonthdays3 6 year month = inr (month_grid year month).
Proof.
  intros Hy Hm.
  destruct (itermonthdays3_grid year month Hm) as (db & da & _ & _ & -> & H).
  by destruct (H Hy) as [-> ->].
Qed.

Lemma length_range (a b : Z) : length (range a b) = Z.to_nat (b - a).
Proof. unfold range. apply length_seqZ. Qed.

Lemma lookup_range (a b : Z) (i : nat) (x : Z) :
  range a b !! i = Some x ↔ x = a + Z.of_nat i ∧ Z.of_nat i < b - a.
Proof. unfold range. apply lookup_seqZ. Qed.

Lemma length_grid_with (db da year month : Z) :
  valid_month month → 0 ≤ db → 0 ≤ da →
  Z.of_nat (length (grid_with db da year month))
  = db + days_in_month year month + da.
Proof.
  intros Hm Hb Ha. unfold grid_with.
  destruct (prevmonth year month) as [y m].
  destruct (nextmonth year month) as [y' m'].
  rewrite !length_app, !length_fmap, !length_range.
  pose proof (days_in_month_bounds year month Hm). lia.
Qed.

Lemma ymd2ord_day (year month d : Z) :
  ymd2ord year month d = ymd2ord year month 1 + d - 1.
Proof. unfold ymd2ord. lia. Qed.

(** The grid holds consecutive days: the tuple at position [i] is [i]
    days after the first. *)
Lemma grid_with_ordinal (db da year month : Z) (i : nat) (t : Z * Z * Z) :
  valid_month month → 0 ≤ db →
  grid_with db da year month !! i = Some t →
  ymd2ord t.1.1 t.1.2 t.2 = ymd2ord year month 1 - db + Z.of_nat i.
Proof.
  intros Hm Hb. unfold grid_with.
  pose proof (last_of_prev_month year month Hm) as Hprev.
  pose proof (first_of_next_month year month Hm) as Hnext.
  pose proof (days_in_month_bounds year month Hm) as Hd.
  destruct (prevmonth year month) as [y m].
  destruct (nextmonth year month) as [y' m']. cbn [fst snd] in *.
  intros Hi.
  apply lookup_app_Some in Hi as [Hi|[Hlen Hi]].
  - apply list_lookup_fmap_Some in Hi as (d & -> & Hd').
    apply lookup_range in Hd' as [-> _]. cbn [fst snd].
    rewrite ymd2ord_day. lia.
  - rewrite length_fmap, length_range in Hlen, Hi.
    apply lookup_app_Some in Hi as [Hi|[Hlen2 Hi]].
    + apply list_lookup_fmap_Some in Hi as (d & -> & Hd').
      apply lookup_range in Hd' as [-> _]. cbn [fst snd].
      rewrite ymd2ord_day. lia.
    + rewrite length_fmap, length_range in Hlen2, Hi.
      apply list_lookup_fmap_Some in Hi as (d & -> & Hd').
      apply lookup_range in Hd' as [-> _]. cbn [fst snd].
      rewrite ymd2ord_day. lia.
Qed.

Lemma grid_with_ymd_ok (db da year month : Z) :
  valid_month month → 0 ≤ db < 7 → 0 ≤ da < 7 →
  Forall ymd_ok (grid_with db da year month).
Proof.
  intros Hm Hb Ha. unfold grid_with.
  pose proof (prevmonth_valid year month Hm) as Hp.
  pose proof (nextmonth_valid year month Hm) as Hn.
  destruct (prevmonth year month) as [y m].
  destruct (nextmonth year month) as [y' m']. cbn [fst snd] in *.
  pose proof (days_in_month_bounds y m Hp).
  pose proof (days_in_month_bounds y' m' Hn).
  rewrite !Forall_app, !Forall_fmap. split_and!;
    apply Forall_forall; intros d Hd; unfold range in Hd;
    apply elem_of_seqZ in Hd; split; simpl; first [done | lia].
Qed.

Lemma grid_with_this_month (db da year month : Z) :
  valid_month month →
  (year, month, 1) ∈ grid_with db da year month.
Proof.
  intros Hm. unfold grid_with.
  pose proof (days_in_month_bounds year month Hm) as Hd.
  destruct (prevmonth year month) as [y m].
  destruct (nextmonth year month) as [y' m'].
  apply elem_of_app. right. apply elem_of_app. left.
  apply (list_elem_of_fmap_2 (λ d, (year, month, d))).
  unfold range. apply elem_of_seqZ. lia.
Qed.

(** The grid is made of whole weeks: four, five or six of them. *)
Lemma month_grid_weeks (year month : Z) :
  valid_month month →
  ∃ k, length (month_grid year month) = (7 * k)%nat ∧ (4 ≤ k ≤ 6)%nat.
Proof.
  intros Hm.
  pose proof (length_grid_with _ _ year month Hm
                (proj1 (days_before_bounds year month))
                (proj1 (days_after_bounds year month))) as Hlen.
  fold (month_grid year month) in Hlen.
  pose proof (days_in_month_bounds year month Hm) as Hd.
  unfold days_before, days_after in Hlen.
  set (fw := first_weekday year month) in *.
  set (n := days_in_month year month) in *.
  exists (Z.to_nat ((Z.of_nat (length (month_grid year month))) / 7)).
  revert Hlen. generalize (length (month_grid year month)). intros len Hlen.
  Z.div_mod_to_equations. lia.
Qed.

Lemma range_step_7 (k : nat) :
  range_step 0 (Z.of_nat (7 * k)) 7 = (λ w : nat, 7 * Z.of_nat w) <$> seq 0 k.
Proof.
  unfold range_step, seqZ.
  replace ((Z.of_nat (7 * k) - 0 + 7 - 1) / 7) with (Z.of_nat k)
    by (Z.div_mod_to_equations; lia).
  rewrite Nat2Z.id, <- list_fmap_compose.
  apply list_fmap_ext. intros _ w _. simpl. lia.
Qed.

Lemma join_chunks {A} (k : nat) :
  ∀ l : list A, length l = (7 * k)%nat →
  mjoin ((λ w : nat, take 7 (drop (7 * w) l)) <$> seq 0 k) = l.
Proof.
  induction k as [|k IH]; intros l Hlen.
  - by destruct l.
  - cbn [seq fmap list_fmap mjoin list_join]. rewrite <- fmap_S_seq.
    rewrite <- list_fmap_compose.
    assert (E : (λ w : nat, take 7 (drop (7 * w) l)) ∘ S <$> seq 0 k
                = (λ w : nat, take 7 (drop (7 * w) (drop 7 l))) <$> seq 0 k).
    { apply list_fmap_ext. intros _ w _. simpl.
      rewrite drop_drop. do 2 f_equal. lia. }
    rewrite E, IH by (rewrite length_drop; lia).
    change (drop (7 * 0) l) with l. apply take_drop.
Qed.

(** The weeks of line 236 for a list of 7k dates: k slices of 7, which
    laid end to end give the list back. *)
Lemma weeks_of_dates {A} (l : list A) (k : nat) :
  length l = (7 * k)%nat →
  let weeks := (λ i, slice l i (i + 7))
                 <$> range_step 0 (Z.of_nat (length l)) 7 in
  weeks = (λ w : nat, take 7 (drop (7 * w) l)) <$> seq 0 k ∧
  length weeks = k ∧
  Forall (λ week, length week = 7%nat) weeks ∧
  mjoin weeks = l.
Proof.
  intros Hlen. cbv zeta. rewrite Hlen, range_step_7, <- list_fmap_compose.
  assert (E : (λ i : Z, slice l i (i + 7)) ∘ (λ w : nat, 7 * Z.of_nat w)
                <$> seq 0 k
              = (λ w : nat, take 7 (drop (7 * w) l)) <$> seq 0 k).
  { apply list_fmap_ext. intros _ w _. simpl. unfold slice.
    f_equal; [|f_equal]; lia. }
  rewrite E. split_and!.
  - reflexivity.
  - by rewrite length_fmap, length_seq.
  - apply Forall_fmap, Forall_forall. intros w Hw. simpl.
    apply elem_of_seq in Hw. rewrite length_take, length_drop. lia.
  - by apply join_chunks.
Qed.

Lemma weeks_lookup {A} (l : list A) (k w j : nat) (week : list A) :
  ((λ w : nat, take 7 (drop (7 * w) l)) <$> seq 0 k) !! w = Some week →
  (j < 7)%nat → week !! j = l !! (7 * w + j)%nat.
Proof.
  intros Hw Hj. apply list_lookup_fmap_Some in Hw as (w' & -> & Hw').
  apply lookup_seq in Hw' as [-> _]. simpl.
  by rewrite lookup_take_lt, lookup_drop by done.
Qed.

Lemma month_grid_years (year month : Z) :
  valid_year year → valid_month month →
  Forall (λ t, valid_year t.1.1) (month_grid year month)
  ↔ grid_in_range year month.
Proof.
  intros Hy Hm. unfold grid_in_range. split.
  - intros Hall. split; intros [-> ->].
    + assert (E : month_grid MINYEAR 1 !! 0%nat = Some (0, 12, 31))
        by (vm_compute; reflexivity).
      apply (Forall_lookup_1 _ _ _ _ Hall) in E.
      unfold valid_year, MINYEAR in E. simpl in E. lia.
    + assert (E : month_grid MAXYEAR 12 !! 34%nat = Some (10000, 1, 1))
        by (vm_compute; reflexivity).
      apply (Forall_lookup_1 _ _ _ _ Hall) in E.
      unfold valid_year, MAXYEAR in E. simpl in E. lia.
  - intros [H1 H2]. unfold month_grid, grid_with.
    assert (Hp : valid_year (prevmonth year month).1).
    { unfold prevmonth, valid_year, valid_month, MINYEAR, MAXYEAR in *.
      destruct (month =? 1) eqn:E; simpl; [apply Z.eqb_eq in E|]; lia. }
    assert (Hn : valid_year (nextmonth year month).1).
    { unfold nextmonth, valid_year, valid_month, MINYEAR, MAXYEAR in *.
      destruct (month =? 12) eqn:E; simpl; [apply Z.eqb_eq in E|]; lia. }
    destruct (prevmonth year month) as [y m].
    destruct (nextmonth year month) as [y' m']. cbn [fst snd] in *.
    rewrite !Forall_app, !Forall_fmap. split_and!;
      apply Forall_forall; intros d _; done.
Qed.

Lemma filter_fmap_all {A B} (P : B → Prop) `{!∀ x, Decision (P x)}
    (f : A → B) (l : list A) :
  (∀ x, P (f x)) → filter P (f <$> l) = f <$> l.
Proof.
  intros HP. induction l as [|x l IH]; [done|].
  cbn [fmap list_fmap]. rewrite filter_cons, decide_True by done.
  f_equal. exact IH.
Qed.

Lemma filter_fmap_none {A B} (P : B → Prop) `{!∀ x, Decision (P x)}
    (f : A → B) (l : list A) :
  (∀ x, ¬ P (f x)) → filter P (f <$> l) = [].
Proof.
  intros HP. induction l as [|x l IH]; [done|].
  cbn [fmap list_fmap]. by rewrite filter_cons, decide_False.
Qed.

(** The dates of the month in the grid: its days, once each, in order. *)
Lemma month_grid_this_month (year month : Z) :
  valid_month month →
  filter (λ d, d_month d = month) (date_of_ymd <$> month_grid year month)
  = mkdate year month <$> range 1 (days_in_month year month + 1).
Proof.
  intros Hm. unfold month_grid, grid_with.
  assert (Hp : (prevmonth year month).2 ≠ month)
    by (unfold prevmonth; each_month Hm; simpl; lia).
  assert (Hn : (nextmonth year month).2 ≠ month)
    by (unfold nextmonth; each_month Hm; simpl; lia).
  destruct (prevmonth year month) as [y m].
  destruct (nextmonth year month) as [y' m']. cbn [fst snd] in *.
  rewrite !fmap_app, <- !list_fmap_compose, !filter_app.
  rewrite (filter_fmap_none _ _ (range _ (days_in_month y m + 1))) by done.
  rewrite (filter_fmap_all _ _ (range 1 (days_in_month year month + 1)))
    by done.
  rewrite filter_fmap_none by done.
  by rewrite app_nil_r.
Qed.

Lemma grid_weekday (year month : Z) (w j : nat) (t : Z * Z * Z) :
  valid_month month → (j < 7)%nat →
  month_grid year month !! (7 * w + j)%nat = Some t →
  date_weekday (date_of_ymd t) = (6 + Z.of_nat j) mod 7.
Proof.
  intros Hm Hj Ht. unfold date_weekday, toordinal, date_of_ymd.
  cbn [d_year d_month d_day].
  rewrite (grid_with_ordinal _ _ year month _ t Hm
             (proj1 (days_before_bounds year month)) Ht).
  unfold days_before, first_weekday.
  generalize (ymd2ord year month 1). intros o.
  Z.div_mod_to_equations. lia.
Qed.

Lemma monthdatescalendar_weeks (year month : Z) :
  valid_year year → valid_month month → grid_in_range year month →
  ∃ k, (4 ≤ k ≤ 6)%nat ∧
       length (month_grid year month) = (7 * k)%nat ∧
       monthdatescalendar 6 year month
       = inr ((λ w : nat, take 7 (drop (7 * w)
                                    (date_of_ymd <$> month_grid year month)))
                <$> seq 0 k).
Proof.
  intros Hy Hm Hr.
  destruct (month_grid_weeks year month Hm) as (k & Hlen & Hk).
  exists k. split; [done|]. split; [done|].
  unfold monthdatescalendar, itermonthdates.
  rewrite itermonthdays3_sunday by done.
  rewrite dates_of_ok.
  2:{ apply Forall_and. split; [by apply month_grid_years|].
      apply grid_with_ymd_ok;
        [done | apply days_before_bounds | apply days_after_bounds]. }
  f_equal.
  apply (weeks_of_dates (date_of_ymd <$> month_grid year month) k).
  by rewrite length_fmap.
Qed.





(** Line 88 finds a colour for every shift. *)
Lemma SHIFT_COLORS_total :
  Forall (λ shift, is_Some (SHIFT_COLORS !! shift)) SHIFTS.
Proof. repeat constructor; by eexists. Qed.

Lemma header_matches_weekday (j : nat) (wd : Z) :
  wd = (6 + Z.of_nat j) mod 7 → (j < 7)%nat →
  day_names !! j = day_abbr !! Z.to_nat wd.
Proof.
  intros -> Hj.
  do 7 (destruct j as [|j]; [vm_compute; reflexivity|]). lia.
Qed.

Lemma day_cells_tables (a : gmap (string * string) (list Pick)) (month : Z)
    (dates : list date_t) :
  omap cell_table (day_cell a month <$> dates)
  = day_table a <$> filter (λ d, d_month d = month) dates.
Proof.
  induction dates as [|d l IH]; [done|].
  cbn [fmap list_fmap omap list_omap]. rewrite filter_cons. unfold day_cell at 1.
  destruct (decide (d_month d = month)) as [E|E].
  - rewrite (proj2 (Z.eqb_eq _ _) E). simpl. by rewrite IH.
  - rewrite (proj2 (Z.eqb_neq _ _) E). simpl. exact IH.
Qed.

Lemma getitem_month_name (month : Z) :
  getitem month_name month
  = if decide (0 ≤ month ≤ 12) then month_name !! Z.to_nat month
    else if decide (-13 ≤ month < 0) then month_name !! Z.to_nat (13 + month)
    else None.
Proof.
  unfold getitem. change (Z.of_nat (length month_name)) with 13.
  change (Z.opp 13) with (Zneg 13).
  destruct (Z.leb_spec 0 month); destruct (Z.ltb_spec month 13);
    destruct (Z.leb_spec (-13) month); destruct (Z.ltb_spec month 0);
    repeat case_decide; simpl; try reflexivity; lia.
Qed.

Lemma getitem_month_name_is_Some (month : Z) :
  -13 ≤ month ≤ 12 → is_Some (getitem month_name month).
Proof.
  intros H. rewrite getitem_month_name.
  repeat case_decide; try lia; apply lookup_lt_is_Some; simpl; lia.
Qed.


(** The Sunday-first weeks of a month: whole weeks, each date in the
    column of its weekday, and the days of the month once each in
    order. *)
Lemma sunday_first_weeks (year month : Z) :
  valid_year year → valid_month month → grid_in_range year month →
  ∃ weeks,
    monthdatescalendar 6 year month = inr weeks ∧
    (4 ≤ length weeks ≤ 6)%nat ∧
    Forall (λ week, length week = 7%nat) weeks ∧
    (∀ w j week d,
       weeks !! w = Some week → week !! j = Some d →
       date_weekday d = (6 + Z.of_nat j) mod 7 ∧
       day_names !! j = day_abbr !! Z.to_nat (date_weekday d)) ∧
    filter (λ d, d_month d = month) (mjoin weeks)
    = mkdate year month <$> range 1 (days_in_month year month + 1).
Proof.
  intros Hy Hm Hr.
  destruct (monthdatescalendar_weeks year month Hy Hm Hr)
    as (k & Hk & Hlen & ->).
  set (dates := date_of_ymd <$> month_grid year month).
  assert (Hdates : length dates = (7 * k)%nat)
    by (unfold dates; by rewrite length_fmap).
  eexists. split; [reflexivity|]. split_and!.
  - rewrite length_fmap, length_seq. lia.
  - rewrite length_fmap, length_seq. lia.
  - apply Forall_fmap, Forall_forall. intros w Hw. simpl.
    apply elem_of_seq in Hw. rewrite length_take, length_drop. lia.
  - intros w j week d Hw Hd.
    assert (Hj : (j < 7)%nat).
    { apply list_lookup_fmap_Some in Hw as (w' & -> & _).
      apply lookup_take_Some in Hd. lia. }
    rewrite (weeks_lookup dates k w j week Hw Hj) in Hd.
    apply list_lookup_fmap_Some in Hd as (t & -> & Ht).
    pose proof (grid_weekday year month w j t Hm Hj Ht) as Hwd.
    split; [done|]. by apply header_matches_weekday.
  - rewrite join_chunks by done. by apply month_grid_this_month.
Qed.


Lemma export_pdf_returns (s : Scheduler) (filename : string)
    (year month : Z) :
  valid_year year → valid_month month → grid_in_range year month →
  ∃ elements, export_pdf s filename year month = inr (filename, elements).
Proof.
  intros Hy Hm Hr. unfold export_pdf.
  destruct (getitem_month_name_is_Some month) as [name ->];
    [unfold valid_month in Hm; lia|].
  destruct (monthdatescalendar_weeks year month Hy Hm Hr)
    as (k & _ & _ & ->). eauto.
Qed.


Lemma getitem_month_name_valid (month : Z) :
  valid_month month →
  ∃ name, getitem month_name month = Some name ∧
          month_name !! Z.to_nat month = Some name.
Proof.
  intros Hm. unfold valid_month in Hm. rewrite getitem_month_name.
  rewrite decide_True by lia.
  destruct (lookup_lt_is_Some_2 month_name (Z.to_nat month)) as [name Hn];
    [simpl; lia|]. eauto.
Qed.

Lemma length_grid_rows (a : gmap (string * string) (list Pick)) (month : Z)
    (weeks : list (list date_t)) :
  Forall (λ week, length week = 7%nat) weeks →
  Forall (λ row, length row = 7%nat) (grid_data a month weeks).
Proof.
  intros Hw. unfold grid_data. apply Forall_cons. split; [reflexivity|].
  apply Forall_fmap. eapply Forall_impl; [exact Hw|].
  intros week Hlen. simpl. by rewrite length_fmap.
Qed.

Lemma grid_data_tables (a : gmap (string * string) (list Pick)) (month : Z)
    (weeks : list (list date_t)) :
  omap cell_table (mjoin (tail (grid_data a month weeks)))
  = day_table a <$> filter (λ d, d_month d = month) (mjoin weeks).
Proof.
  unfold grid_data. cbn [tail]. rewrite <- day_cells_tables. f_equal.
  induction weeks as [|week weeks IH]; [done|].
  change (mjoin (week :: weeks)) with (week ++ mjoin weeks).
  rewrite fmap_app, <- IH. reflexivity.
Qed.

(** The elements export_pdf builds for a month it accepts: the title,
    the month grid and, when there are violations, their paragraph.  The
    grid has the header row and four to six week rows, each of seven
    cells; the cell of each date of a week stands under the header of
    its weekday; the nested day tables are those of the days of the
    month, once each and in order, every other cell being the empty
    str. *)
Theorem export_pdf_grid (s : Scheduler) (filename : string) (year month : Z) :
  valid_year year → valid_month month → grid_in_range year month →
  ∃ name weeks,
    month_name !! Z.to_nat month = Some name ∧
    monthdatescalendar 6 year month = inr weeks ∧
    let a := assignments s in
    let grid := grid_data a month weeks in
    export_pdf s filename year month
    = inr (filename,
           [FlowParagraph
              (Paragraph ("<b>" +:+ name +:+ " " +:+ pretty year +:+ "</b>")
                         (sample_style "Title"));
            FlowTable
              (Table grid (replicate 7 105)
                     [GRID (0, 0) (-1, -1) 0.6 black;
                      BACKGROUND (0, 0) (-1, 0) whitesmoke;
                      VALIGN (0, 0) (-1, -1) "TOP"])]
           ++ violations_paragraph (violations s)) ∧
    (5 ≤ length grid ≤ 7)%nat ∧
    Forall (λ row, length row = 7%nat) grid ∧
    (∀ w j week d,
       weeks !! w = Some week → week !! j = Some d →
       (grid !! S w ≫= (.!! j))
       = Some (if decide (d_month d = month)
               then CellTable (day_table a d) else CellStr "") ∧
       day_names !! j = day_abbr !! Z.to_nat (date_weekday d)) ∧
    omap cell_table (mjoin (tail grid))
    = day_table a ∘ mkdate year month
        <$> range 1 (days_in_month year month + 1).
Proof.
  intros Hy Hm Hr.
  destruct (getitem_month_name_valid month Hm) as (name & Hget & Hname).
  destruct (sunday_first_weeks year month Hy Hm Hr)
    as (weeks & Hweeks & Hlen & H7 & Hcol & Hdays).
  exists name, weeks. cbv zeta. split_and!; [done | done | | | | | |].
  - unfold export_pdf. by rewrite Hget, Hweeks.
  - unfold grid_data. rewrite length_cons, length_fmap. lia.
  - unfold grid_data. rewrite length_cons, length_fmap. lia.
  - by apply length_grid_rows.
  - intros w j week d Hw Hd. split; [|by apply (Hcol w j week d)].
    change (grid_data (assignments s) month weeks !! S w)
      with (((λ week : list date_t, day_cell (assignments s) month <$> week)
               <$> weeks) !! w).
    rewrite list_lookup_fmap, Hw. cbn [fmap option_fmap option_map mbind option_bind].
    rewrite list_lookup_fmap, Hd. cbn [fmap option_fmap option_map].
    f_equal. unfold day_cell. case_decide as E.
    + by rewrite (proj2 (Z.eqb_eq _ _) E).
    + by rewrite (proj2 (Z.eqb_neq _ _) E).
  - rewrite grid_data_tables, Hdays. by rewrite <- list_fmap_compose.
Qed.

(* ===================================================================== *)
(* 27. The calendar of a generated schedule                              *)
(* ===================================================================== *)

Lemma digit_range (n : Z) : 0 ≤ n mod 10 ≤ 9.
Proof. pose proof (Z.mod_pos_bound n 10). lia. Qed.

Lemma pad4_inj (a b : Z) :
  0 ≤ a < 10000 → 0 ≤ b < 10000 → pad4 a = pad4 b → a = b.
Proof.
  intros Ha Hb H. unfold pad4, pad2 in H. injection H as H1 H2 H3 H4.
  apply digit_inj in H1, H2, H3, H4; try apply digit_range.
  Z.div_mod_to_equations. lia.
Qed.

(** The key tells the date. *)
Lemma day_key_inj_date (y1 m1 d1 y2 m2 d2 : Z) :
  0 ≤ y1 < 10000 → 0 ≤ y2 < 10000 →
  0 ≤ m1 < 100 → 0 ≤ m2 < 100 → 0 ≤ d1 < 100 → 0 ≤ d2 < 100 →
  day_key y1 m1 d1 = day_key y2 m2 d2 → y1 = y2 ∧ m1 = m2 ∧ d1 = d2.
Proof.
  intros Hy1 Hy2 Hm1 Hm2 Hd1 Hd2 H. unfold day_key, strftime_Ymd in H.
  cbn [d_year d_month d_day] in H.
  apply append_inj_length in H as [Hy H]; [|reflexivity].
  apply (inj (String.app _)) in H.
  apply append_inj_length in H as [Hm H]; [|reflexivity].
  apply (inj (String.app _)) in H.
  split_and!; [by apply pad4_inj | by apply pad2_inj | by apply pad2_inj].
Qed.

Lemma shift_lines_unfilled (a : gmap (string * string) (list Pick))
    (day_key shift : string) :
  a !! (day_key, shift) = None ∨ a !! (day_key, shift) = Some [] →
  shift_lines a day_key shift = [shift +:+ ": (unfilled)"].
Proof. unfold shift_lines. by intros [-> | ->]. Qed.

Lemma shift_lines_filled (a : gmap (string * string) (list Pick))
    (day_key shift : string) (picks : list Pick) :
  a !! (day_key, shift) = Some picks → picks ≠ [] →
  shift_lines a day_key shift = (shift +:+ ":") :: (pick_line <$> picks).
Proof. unfold shift_lines. intros -> H. by destruct picks. Qed.

(** After generate_schedule, the day cell export_pdf builds for a day of
    the generated month shows, for each shift, "shift: (unfilled)" when
    no record is available for the shift, and otherwise the line
    "shift:" followed by one line per pick, min(3, available) of them,
    each the line of a roster record available for the shift. *)
Theorem calendar_shows_generated_picks (year month : Z) (w : World) (d : Z)
    (i : nat) (shift : string) :
  valid_year year → valid_month month → has_str w →
  1 ≤ d ≤ days_in_month year month → SHIFTS !! i = Some shift →
  let r := generate_schedule year month w in
  let a := assignments (self r.2) in
  let available := rows (filter_available shift (staff_df (self w))) in
  let lines := shift_lines a (strftime_Ymd (mkdate year month d)) shift in
  r.1 = inr tt ∧
  table_data (day_table a (mkdate year month d)) !! S i
  = Some [Paragraph (join "<br/>" lines) style_small] ∧
  (available = [] → lines = [shift +:+ ": (unfilled)"]) ∧
  (available ≠ [] →
   ∃ picks,
     a !! (day_key year month d, shift) = Some picks ∧
     lines = (shift +:+ ":") :: (pick_line <$> picks) ∧
     length picks = Nat.min 3 (length available) ∧
     ∀ p, p ∈ picks → ∃ row, row ∈ available ∧ p = pick_of row).
Proof.
  intros Hy Hm Hw Hd Hi. cbv zeta. rewrite generate_schedule_ok by done.
  cbn [fst snd]. set (wf := run_slots _ _).
  change (strftime_Ymd (mkdate year month d)) with (day_key year month d).
  assert (Hsh : shift ∈ SHIFTS) by by eapply list_elem_of_lookup_2.
  destruct (month_run_slot year month w d shift Hd Hsh)
    as (picks & locs & Hp & Hlen & _ & Hat). fold wf in Hp.
  split_and!.
  - reflexivity.
  - unfold day_table. cbn [table_data].
    change ((?x :: ?l) !! S i) with (l !! i).
    rewrite list_lookup_fmap, Hi. reflexivity.
  - intros Hnone. apply shift_lines_unfilled. right.
    rewrite Hp. f_equal. apply picked_at_length in Hat.
    rewrite Hnone in Hlen. simpl in Hlen. apply nil_length_inv. congruence.
  - intros Hsome. exists picks. apply picked_at_length in Hat as Hlp.
    split_and!; [done | | congruence |].
    + apply shift_lines_filled; [done|]. intros ->.
      destruct (rows (filter_available shift (staff_df (self w))));
        [done | simpl in *; lia].
    + intros p Hin. by eapply picked_at_elem_of.
Qed.

(** A calendar exported for another month than the one generated (or
    from a scheduler that has generated nothing) shows every slot as
    unfilled: the slots are looked up by date and none is a key of the
    dict. *)
Theorem calendar_of_other_month_unfilled (year month : Z) (w : World)
    (year' month' d' : Z) (shift : string) :
  valid_year year → valid_month month → has_str w →
  valid_year year' → valid_month month' →
  1 ≤ d' ≤ days_in_month year' month' →
  (year', month') ≠ (year, month) →
  let r := generate_schedule year month w in
  r.1 = inr tt ∧
  shift_lines (assignments (self r.2))
    (strftime_Ymd (mkdate year' month' d')) shift
  = [shift +:+ ": (unfilled)"] ∧
  shift_lines (assignments (__init__ (staff_df (self w)) 240 None))
    (strftime_Ymd (mkdate year' month' d')) shift
  = [shift +:+ ": (unfilled)"].
Proof.
  intros Hy Hm Hw Hy' Hm' Hd' Hne. cbv zeta.
  rewrite generate_schedule_ok by done. cbn [fst snd].
  split; [done|]. split; [|done].
  apply shift_lines_unfilled. left. apply eq_None_not_Some.
  rewrite month_run_keys, elem_of_month_slots.
  intros (d & sh & Hd & _ & Hk). apply Hne.
  apply (f_equal fst) in Hk. cbn [fst] in Hk.
  pose proof (days_in_month_bounds year month Hm).
  pose proof (days_in_month_bounds year' month' Hm').
  unfold valid_year, valid_month, MINYEAR, MAXYEAR in *.
  change (strftime_Ymd (mkdate year' month' d'))
    with (day_key year' month' d') in Hk.
  apply day_key_inj_date in Hk as (-> & -> & _); [done|lia..].
Qed.

(* ===================================================================== *)
(* 28. More on the schedule of a month                                   *)
(* ===================================================================== *)

(** A year outside 1..9999 with a month in 1..12: monthrange accepts
    it and the date constructor raises for the first day, ValueError
    when the year fits a C int and OverflowError when it does not.  The
    two clear() calls have run: both results are empty, roster and
    random state untouched. *)
Theorem bad_year_raises_after_reset (year month : Z) (w : World) :
  valid_month month → ¬ valid_year year →
  let r := generate_schedule year month w in
  monthrange_ndays year month = inr (days_in_month year month) ∧
  (INT_MIN ≤ year ≤ INT_MAX →
   r.1 = inl (ValueError "year is out of range")) ∧
  (¬ INT_MIN ≤ year ≤ INT_MAX → ∃ msg, r.1 = inl (OverflowError msg)) ∧
  assignments (self r.2) = ∅ ∧
  violations (self r.2) = [] ∧
  staff_df (self r.2) = staff_df (self w) ∧
  random_state r.2 = random_state w.
Proof.
  intros Hm Hy. cbv zeta. rewrite generate_schedule_bad_year by done.
  split; [by apply monthrange_ndays_valid|]. cbn [fst snd]. split_and!.
  - intros Hfit. by rewrite year_error_fits.
  - intros Hfit. destruct (year_error_overflow year Hfit) as [msg ->]. eauto.
  - done.
  - done.
  - done.
  - done.
Qed.

Lemma picked_at_fmap (avail : list Row) (locs : list nat) (picks : list Pick) :
  picked_at avail locs picks →
  picks = (λ i, default ("", "", false)%string (pick_of <$> avail !! i)) <$> locs.
Proof.
  induction 1 as [|i p locs picks (r & Hr & ->) _ IH]; [done|].
  cbn [fmap list_fmap]. rewrite Hr. simpl. by f_equal.
Qed.

Lemma picked_at_in_range (avail : list Row) (locs : list nat)
    (picks : list Pick) :
  picked_at avail locs picks → Forall (λ i, (i < length avail)%nat) locs.
Proof.
  induction 1 as [|i p locs picks (r & Hr & _) _ IH]; constructor; [|done].
  by eapply lookup_lt_Some.
Qed.

(** All positions taken: the picks are the whole frame, in some order. *)
Lemma picked_at_all (avail : list Row) (locs : list nat) (picks : list Pick) :
  NoDup locs → length locs = length avail → picked_at avail locs picks →
  picks ≡ₚ pick_of <$> avail.
Proof.
  intros Hnd Hlen Hat.
  assert (Hperm : locs ≡ₚ seq 0 (length avail)).
  { apply submseteq_length_Permutation.
    - apply NoDup_submseteq; [done|]. intros i Hi. apply elem_of_seq.
      pose proof (picked_at_in_range _ _ _ Hat) as Hr.
      rewrite Forall_forall in Hr. specialize (Hr i Hi). lia.
    - rewrite length_seq. lia. }
  rewrite (picked_at_fmap _ _ _ Hat), Hperm.
  assert (E : (λ i, default ("", "", false)%string (pick_of <$> avail !! i))
                <$> seq 0 (length avail)
              = pick_of <$> avail); [|by rewrite E].
  apply list_eq. intros i. rewrite !list_lookup_fmap.
  destruct (avail !! i) as [r|] eqn:Hr.
  - rewrite lookup_seq_lt by by eapply lookup_lt_Some.
    simpl. by rewrite Hr.
  - rewrite lookup_ge_None_2; [done|].
    rewrite length_seq. by apply lookup_ge_None.
Qed.

(** With at most three records available for a shift, every slot of
    that shift holds all of them: its picks are the tuples of the
    available records in some order. *)
Theorem few_available_all_picked (year month : Z) (w : World) (d : Z)
    (shift : string) :
  valid_year year → valid_month month → has_str w →
  1 ≤ d ≤ days_in_month year month → shift ∈ SHIFTS →
  let r := generate_schedule year month w in
  let available := rows (filter_available shift (staff_df (self w))) in
  (length available ≤ 3)%nat →
  ∃ picks,
    assignments (self r.2) !! (day_key year month d, shift) = Some picks ∧
    picks ≡ₚ pick_of <$> available.
Proof.
  intros Hy Hm Hw Hd Hsh. cbv zeta. intros Hle.
  rewrite generate_schedule_ok by done. cbn [fst snd].
  destruct (month_run_slot year month w d shift Hd Hsh)
    as (picks & locs & Hp & Hlen & Hnd & Hat).
  exists picks. split; [done|].
  apply (picked_at_all _ locs); [done | lia | done].
Qed.

(** Whether the message of a slot and a required role is in the
    violation list of a run. *)
Lemma month_run_violation_iff (year month : Z) (w : World) (d : Z)
    (shift needed : string) :
  valid_month month →
  1 ≤ d ≤ days_in_month year month → shift ∈ SHIFTS →
  needed ∈ ROLES_NEEDED →
  let wf := run_slots (month_slots year month) (cleared w) in
  missing_role_msg (day_key year month d) shift needed ∈ violations (self wf)
  ↔ needed ∉ pick_role <$> assignments (self wf) !!! (day_key year month d, shift).
Proof.
  intros Hm Hd Hsh Hn. cbv zeta. rewrite month_run_violations by done.
  set (wf := run_slots _ _). rewrite list_elem_of_bind. split.
  - intros (slot' & Hmsg & Hslot').
    apply elem_of_month_slots in Hslot' as (d' & sh' & _ & Hsh' & ->).
    unfold slot_violations in Hmsg. cbn [fst snd] in Hmsg.
    apply list_elem_of_fmap in Hmsg as (n' & Heq & Hn').
    apply missing_roles_subseteq in Hn' as [Hn' Hmiss].
    destruct (missing_role_msg_inj
                (day_key year month d) (day_key year month d')
                shift sh' needed n' eq_refl Hsh Hsh' Hn Hn' Heq)
      as (Hk & -> & ->).
    by rewrite Hk.
  - intros Hmiss. exists (day_key year month d, shift). split.
    + unfold slot_violations. apply list_elem_of_fmap_2.
      by apply missing_roles_subseteq.
    + apply elem_of_month_slots. eauto.
Qed.

(** A slot is free of violations exactly when its picks are three
    records that hold the three required roles, one each. *)
Theorem slot_covered_iff_three_roles (year month : Z) (w : World) (d : Z)
    (shift : string) :
  valid_year year → valid_month month → has_str w →
  1 ≤ d ≤ days_in_month year month → shift ∈ SHIFTS →
  let r := generate_schedule year month w in
  ∃ picks,
    assignments (self r.2) !! (day_key year month d, shift) = Some picks ∧
    ((∀ needed, needed ∈ ROLES_NEEDED →
        missing_role_msg (day_key year month d) shift needed
        ∉ violations (self r.2))
     ↔ pick_role <$> picks ≡ₚ ROLES_NEEDED).
Proof.
  intros Hy Hm Hw Hd Hsh. cbv zeta. rewrite generate_schedule_ok by done.
  cbn [fst snd].
  destruct (month_run_slot year month w d shift Hd Hsh)
    as (picks & locs & Hp & Hlen & _ & Hat).
  apply picked_at_length in Hat.
  exists picks. split; [done|].
  assert (Hiff : ∀ needed, needed ∈ ROLES_NEEDED →
            missing_role_msg (day_key year month d) shift needed
            ∈ violations (self (run_slots (month_slots year month) (cleared w)))
            ↔ needed ∉ pick_role <$> picks).
  { intros needed Hn.
    rewrite (month_run_violation_iff year month w d shift needed) by done.
    by rewrite lookup_total_alt, Hp. }
  split.
  - intros Hnone. symmetry. apply submseteq_length_Permutation.
    + apply NoDup_submseteq; [apply NoDup_ROLES_NEEDED|].
      intros needed Hn.
      destruct (decide (needed ∈ pick_role <$> picks)) as [|Hmiss]; [done|].
      by destruct (Hnone needed Hn); apply Hiff.
    + rewrite length_fmap, Hat, Hlen.
      change (length ROLES_NEEDED) with 3%nat. lia.
  - intros Hperm needed Hn. rewrite Hiff by done.
    intros Hmiss. apply Hmiss. by rewrite Hperm.
Qed.

(** With fewer than three records available for a shift, every slot of
    that shift has a violation. *)
Theorem fewer_than_three_leaves_violation (year month : Z) (w : World)
    (d : Z) (shift : string) :
  valid_year year → valid_month month → has_str w →
  1 ≤ d ≤ days_in_month year month → shift ∈ SHIFTS →
  let r := generate_schedule year month w in
  let available := rows (filter_available shift (staff_df (self w))) in
  (length available < 3)%nat →
  ∃ needed, needed ∈ ROLES_NEEDED ∧
            missing_role_msg (day_key year month d) shift needed
            ∈ violations (self r.2).
Proof.
  intros Hy Hm Hw Hd Hsh. cbv zeta. intros Hlt.
  rewrite generate_schedule_ok by done. cbn [fst snd].
  destruct (month_run_slot year month w d shift Hd Hsh)
    as (picks & locs & Hp & Hlen & _ & Hat).
  apply picked_at_length in Hat.
  assert (Hex : Exists (λ needed, needed ∉ pick_role <$> picks) ROLES_NEEDED).
  { apply not_Forall_Exists; [apply _|]. intros Hall.
    assert (Hsub : ROLES_NEEDED ⊆+ pick_role <$> picks).
    { apply NoDup_submseteq; [apply NoDup_ROLES_NEEDED|].
      intros needed Hn. rewrite Forall_forall in Hall.
      specialize (Hall needed Hn). simpl in Hall.
      by destruct (decide (needed ∈ pick_role <$> picks)). }
    apply submseteq_length in Hsub. rewrite length_fmap in Hsub.
    change (length ROLES_NEEDED) with 3%nat in Hsub. lia. }
  apply Exists_exists in Hex as (needed & Hn & Hmiss).
  exists needed. split; [done|].
  apply (month_run_violation_iff year month w d shift needed); try done.
  by rewrite lookup_total_alt, Hp.
Qed.

(** A required role that no record of the roster has is reported
    missing for every slot of the month. *)
Theorem role_absent_from_roster (year month : Z) (w : World) (d : Z)
    (shift needed : string) :
  valid_year year → valid_month month → has_str w →
  1 ≤ d ≤ days_in_month year month → shift ∈ SHIFTS →
  needed ∈ ROLES_NEEDED →
  (∀ row, row ∈ rows (staff_df (self w)) → Role row ≠ needed) →
  let r := generate_schedule year month w in
  missing_role_msg (day_key year month d) shift needed ∈ violations (self r.2).
Proof.
  intros Hy Hm Hw Hd Hsh Hn Hnone. cbv zeta.
  rewrite generate_schedule_ok by done. cbn [fst snd].
  destruct (month_run_slot year month w d shift Hd Hsh)
    as (picks & locs & Hp & _ & _ & Hat).
  apply (month_run_violation_iff year month w d shift needed); try done.
  rewrite lookup_total_alt, Hp. simpl.
  intros Hin. apply list_elem_of_fmap in Hin as (p & Hrole & Hp').
  destruct (picked_at_elem_of _ _ _ p Hat Hp') as (row & Hrow & ->).
  apply filter_available_elem_of in Hrow as [Hrow _].
  by apply (Hnone row Hrow).
Qed.

(** A roster whose Availability column is numeric, with a year and a
    month in range: the .str accessor raises AttributeError at the first
    slot, after the two clear() calls. *)
Theorem numeric_availability_raises (year month : Z) (w : World) :
  valid_year year → valid_month month →
  Availability_dtype (staff_df (self w)) = float64 →
  let r := generate_schedule year month w in
  r.1 = inl (AttributeError str_accessor_msg) ∧
  assignments (self r.2) = ∅ ∧
  violations (self r.2) = [] ∧
  random_state r.2 = random_state w.
Proof.
  intros Hy Hm Hdt. cbv zeta.
  rewrite generate_schedule_no_str; [by split_and! | done | done |].
  unfold has_str. by rewrite Hdt.
Qed.

(* ===================================================================== *)
(* 29. main                                                              *)
(* ===================================================================== *)

Lemma widget_values_valid (month year : Z) :
  widget_values month year →
  valid_month month ∧ valid_year year ∧ grid_in_range year month.
Proof.
  unfold widget_values, valid_month, valid_year, grid_in_range,
    MINYEAR, MAXYEAR. lia.
Qed.

(** With the values the Month and Year widgets can give and a roster
    with a string Availability column, the press of "Generate Schedule"
    raises in neither generate_schedule nor the calendar of export_pdf:
    the page gets the download of the exported document under the name
    schedule_<month>_<year>.pdf, and the violations of the run as text
    lines, under the warning exactly when there are any. *)
Theorem main_generate_ok (staff_df : DataFrame) (month year max_hours : Z)
    (tmp_name : string) (rs : RandomState) :
  widget_values month year → Availability_dtype staff_df = object_ →
  let r := generate_schedule year month
             (mkWorld (__init__ staff_df max_hours None) rs) in
  ∃ elements page,
    r.1 = inr tt ∧
    export_pdf (self r.2) tmp_name year month = inr (tmp_name, elements) ∧
    main_generate staff_df month year max_hours tmp_name rs
    = inr (page, random_state r.2) ∧
    download_file_name page
    = "schedule_" +:+ pretty month +:+ "_" +:+ pretty year +:+ ".pdf" ∧
    download_document page = (tmp_name, elements) ∧
    texts page = violations (self r.2) ∧
    (warning page = None ↔ violations (self r.2) = []).
Proof.
  intros Hwv Hdt. cbv zeta.
  destruct (widget_values_valid month year Hwv) as (Hm & Hy & Hr).
  set (w0 := mkWorld (__init__ staff_df max_hours None) rs).
  assert (Hw : has_str w0) by exact Hdt.
  unfold main_generate. fold w0.
  rewrite generate_schedule_ok by done. cbn [fst snd].
  set (wf := run_slots _ _).
  destruct (export_pdf_returns (self wf) tmp_name year month Hy Hm Hr)
    as [elements Hex].
  rewrite Hex. eexists elements, _.
  split_and!; try reflexivity.
  cbn [warning]. destruct (violations (self wf)); split; done.
Qed.


(* ===================================================================== *)
(* 30. The theorems at concrete inputs                                   *)
(* ===================================================================== *)

Ltac grid_ok := unfold grid_in_range, MINYEAR, MAXYEAR; lia.



Lemma export_pdf_grid_witness :
  ∃ weeks,
    monthdatescalendar 6 2024 2 = inr weeks ∧
    Forall (λ row, length row = 7%nat)
      (grid_data (assignments (self demo_world)) 2 weeks) ∧
    omap cell_table
      (mjoin (tail (grid_data (assignments (self demo_world)) 2 weeks)))
    = day_table (assignments (self demo_world)) ∘ mkdate 2024 2
        <$> range 1 (29 + 1).
Proof.
  assert (Hy : valid_year 2024) by in_range.
  assert (Hm : valid_month 2) by in_range.
  assert (Hr : grid_in_range 2024 2) by grid_ok.
  destruct (export_pdf_grid (self demo_world) "out.pdf" 2024 2 Hy Hm Hr)
    as (name & weeks & _ & Hweeks & _ & _ & H7 & _ & Htables).
  exists weeks. split_and!; [exact Hweeks | exact H7 | exact Htables].
Defined.

Lemma calendar_shows_generated_picks_witness :
  let a := assignments (self (generate_schedule 2024 2 demo_world).2) in
  table_data (day_table a (mkdate 2024 2 1)) !! 1%nat
  = Some [Paragraph (join "<br/>" (shift_lines a "2024-02-01" "AM"))
                    style_small].
Proof.
  assert (Hy : valid_year 2024) by in_range.
  assert (Hm : valid_month 2) by in_range.
  assert (Hw : has_str demo_world) by reflexivity.
  assert (Hd : 1 ≤ 1 ≤ days_in_month 2024 2) by (vm_compute; split; discriminate).
  assert (Hi : SHIFTS !! 0%nat = Some "AM"%string) by reflexivity.
  exact (proj1 (proj2 (calendar_shows_generated_picks 2024 2 demo_world 1 0 "AM"
                         Hy Hm Hw Hd Hi))).
Defined.

Lemma calendar_of_other_month_unfilled_witness :
  shift_lines (assignments (self (generate_schedule 2024 1 demo_world).2))
    (strftime_Ymd (mkdate 2024 2 1)) "AM"
  = ["AM: (unfilled)"]%string.
Proof.
  assert (Hy : valid_year 2024) by in_range.
  assert (Hm : valid_month 1) by in_range.
  assert (Hm' : valid_month 2) by in_range.
  assert (Hw : has_str demo_world) by reflexivity.
  assert (Hd : 1 ≤ 1 ≤ days_in_month 2024 2) by (vm_compute; split; discriminate).
  assert (Hne : (2024, 2) ≠ (2024, 1)) by discriminate.
  exact (proj1 (proj2 (calendar_of_other_month_unfilled 2024 1 demo_world
                         2024 2 1 "AM" Hy Hm Hw Hy Hm' Hd Hne))).
Defined.

Lemma bad_year_raises_after_reset_witness :
  (generate_schedule 0 1 after_january).1
  = inl (ValueError "year is out of range") ∧
  assignments (self (generate_schedule 0 1 after_january).2) = ∅ ∧
  (∃ msg, (generate_schedule 2147483648 1 after_january).1
          = inl (OverflowError msg)) ∧
  assignments (self (generate_schedule 2147483648 1 after_january).2) = ∅.
Proof.
  assert (Hm : valid_month 1) by in_range.
  assert (Hy : ¬ valid_year 0) by in_range.
  assert (Hy' : ¬ valid_year 2147483648) by in_range.
  assert (Hfit : INT_MIN ≤ 0 ≤ INT_MAX) by (unfold INT_MIN, INT_MAX; lia).
  assert (Hfit' : ¬ INT_MIN ≤ 2147483648 ≤ INT_MAX)
    by (unfold INT_MIN, INT_MAX; lia).
  destruct (bad_year_raises_after_reset 0 1 after_january Hm Hy)
    as (_ & H1 & _ & H2 & _).
  destruct (bad_year_raises_after_reset 2147483648 1 after_january Hm Hy')
    as (_ & _ & H3 & H4 & _).
  split_and!; [exact (H1 Hfit) | exact H2 | exact (H3 Hfit') | exact H4].
Defined.

Lemma few_available_all_picked_witness :
  ∃ picks,
    assignments (self (generate_schedule 2024 2 demo_world).2)
      !! (day_key 2024 2 29, "AM"%string) = Some picks ∧
    picks ≡ₚ [pick_of alice; pick_of bob].
Proof.
  assert (Hy : valid_year 2024) by in_range.
  assert (Hm : valid_month 2) by in_range.
  assert (Hw : has_str demo_world) by reflexivity.
  assert (Hd : 1 ≤ 29 ≤ days_in_month 2024 2) by (vm_compute; split; discriminate).
  assert (Hsh : "AM"%string ∈ SHIFTS) by (apply elem_of_SHIFTS; by left).
  assert (Hle : (length (rows (filter_available "AM" (staff_df (self demo_world)))) ≤ 3)%nat)
    by (vm_compute; lia).
  exact (few_available_all_picked 2024 2 demo_world 29 "AM" Hy Hm Hw Hd Hsh Hle).
Defined.

Lemma slot_covered_iff_three_roles_witness :
  ∃ picks,
    assignments (self (generate_schedule 2024 2 demo_world).2)
      !! (day_key 2024 2 1, "AM"%string) = Some picks ∧
    ((∀ needed, needed ∈ ROLES_NEEDED →
        missing_role_msg (day_key 2024 2 1) "AM" needed
        ∉ violations (self (generate_schedule 2024 2 demo_world).2))
     ↔ pick_role <$> picks ≡ₚ ROLES_NEEDED).
Proof.
  assert (Hy : valid_year 2024) by in_range.
  assert (Hm : valid_month 2) by in_range.
  assert (Hw : has_str demo_world) by reflexivity.
  assert (Hd : 1 ≤ 1 ≤ days_in_month 2024 2) by (vm_compute; split; discriminate).
  assert (Hsh : "AM"%string ∈ SHIFTS) by (apply elem_of_SHIFTS; by left).
  exact (slot_covered_iff_three_roles 2024 2 demo_world 1 "AM" Hy Hm Hw Hd Hsh).
Defined.

Lemma fewer_than_three_leaves_violation_witness :
  ∃ needed, needed ∈ ROLES_NEEDED ∧
    missing_role_msg (day_key 2024 2 1) "PM" needed
    ∈ violations (self (generate_schedule 2024 2 demo_world).2).
Proof.
  assert (Hy : valid_year 2024) by in_range.
  assert (Hm : valid_month 2) by in_range.
  assert (Hw : has_str demo_world) by reflexivity.
  assert (Hd : 1 ≤ 1 ≤ days_in_month 2024 2) by (vm_compute; split; discriminate).
  assert (Hsh : "PM"%string ∈ SHIFTS)
    by (apply elem_of_SHIFTS; right; by right).
  assert (Hlt : (length (rows (filter_available "PM" (staff_df (self demo_world)))) < 3)%nat)
    by (vm_compute; lia).
  exact (fewer_than_three_leaves_violation 2024 2 demo_world 1 "PM"
           Hy Hm Hw Hd Hsh Hlt).
Defined.

Lemma role_absent_from_roster_witness :
  missing_role_msg (day_key 2024 2 1) "AM" "Probationary EMT"
  ∈ violations (self (generate_schedule 2024 2 pair_world).2).
Proof.
  assert (Hy : valid_year 2024) by in_range.
  assert (Hm : valid_month 2) by in_range.
  assert (Hw : has_str pair_world) by reflexivity.
  assert (Hd : 1 ≤ 1 ≤ days_in_month 2024 2) by (vm_compute; split; discriminate).
  assert (Hsh : "AM"%string ∈ SHIFTS) by (apply elem_of_SHIFTS; by left).
  assert (Hn : "Probationary EMT"%string ∈ ROLES_NEEDED)
    by (apply elem_of_ROLES_NEEDED; right; by left).
  assert (Hnone : ∀ row, row ∈ rows (staff_df (self pair_world)) →
                         Role row ≠ "Probationary EMT"%string).
  { intros row Hrow. apply elem_of_cons in Hrow as [->|Hrow]; [discriminate|].
    apply elem_of_cons in Hrow as [->|Hrow]; [discriminate|].
    by apply elem_of_nil in Hrow. }
  exact (role_absent_from_roster 2024 2 pair_world 1 "AM" "Probationary EMT"
           Hy Hm Hw Hd Hsh Hn Hnone).
Defined.

Lemma missing_availability_never_picked_witness :
  (generate_schedule 2024 2 demo_world).1 = inr tt ∧
  ∀ shift, carol ∉ rows (filter_available shift (staff_df (self demo_world))).
Proof.
  assert (Hy : valid_year 2024) by in_range.
  assert (Hm : valid_month 2) by in_range.
  assert (Hw : has_str demo_world) by reflexivity.
  destruct (missing_availability_never_picked 2024 2 demo_world Hy Hm Hw)
    as (H1 & H2 & _).
  split; [exact H1|]. intros shift. apply H2. reflexivity.
Defined.

Lemma numeric_availability_raises_witness :
  (generate_schedule 2024 1 all_blank_world).1
  = inl (AttributeError str_accessor_msg).
Proof.
  assert (Hy : valid_year 2024) by in_range.
  assert (Hm : valid_month 1) by in_range.
  assert (Hdt : Availability_dtype (staff_df (self all_blank_world)) = float64)
    by reflexivity.
  exact (proj1 (numeric_availability_raises 2024 1 all_blank_world Hy Hm Hdt)).
Defined.

Lemma main_generate_ok_witness :
  ∃ elements page,
    main_generate demo_df 2 2024 240 "tmp.pdf" zeros
    = inr (page, random_state (generate_schedule 2024 2 demo_world).2) ∧
    download_file_name page = "schedule_2_2024.pdf"%string ∧
    download_document page = ("tmp.pdf"%string, elements).
Proof.
  assert (Hwv : widget_values 2 2024) by (unfold widget_values; lia).
  assert (Hdt : Availability_dtype demo_df = object_) by reflexivity.
  destruct (main_generate_ok demo_df 2 2024 240 "tmp.pdf" zeros Hwv Hdt)
    as (elements & page & _ & _ & Hmain & Hname & Hdoc & _).
  exists elements, page. split_and!; [exact Hmain | exact Hname | exact Hdoc].
Defined.

Example demo_day_cell_text :
  let a := assignments (self (generate_schedule 2024 2 demo_world).2) in
  join "<br/>" (shift_lines a "2024-02-01" "AM")
  = "AM:<br/>• Alice (Full EMT) $<br/>• Bob (Observer)"%string ∧
  join "<br/>" (shift_lines a "2024-02-01" "Midday")
  = "Midday: (unfilled)"%string.
Proof. cbv zeta. split; vm_compute; reflexivity. Qed.

Example feb_2024_weeks :
  monthdatescalendar 6 2024 2
  = inr ((λ week : list (Z * Z * Z), date_of_ymd <$> week) <$>
      [[(2024,1,28); (2024,1,29); (2024,1,30); (2024,1,31);
        (2024,2,1); (2024,2,2); (2024,2,3)];
       [(2024,2,4); (2024,2,5); (2024,2,6); (2024,2,7);
        (2024,2,8); (2024,2,9); (2024,2,10)];
       [(2024,2,11); (2024,2,12); (2024,2,13); (2024,2,14);
        (2024,2,15); (2024,2,16); (2024,2,17)];
       [(2024,2,18); (2024,2,19); (2024,2,20); (2024,2,21);
        (2024,2,22); (2024,2,23); (2024,2,24)];
       [(2024,2,25); (2024,2,26); (2024,2,27); (2024,2,28);
        (2024,2,29); (2024,3,1); (2024,3,2)]]).
Proof. vm_compute. reflexivity. Qed.
